(** * session-think-mcp: name codec, session store, relationship graph, search

    A shallow embedding of [index.js] (the server source) and the
    properties of its natural-language specification.

    Conventions of the embedding.
    - A JavaScript string is a [string]: a sequence of one-byte code units.
      Every regular expression of the source is written out as the
      function on code units it computes.
    - [null]/[undefined] is [None]; JavaScript truthiness is written out
      ([Str.truthy]: the empty string is falsy).
    - The session directory is a finite map from file names to file
      objects.  A file records what a read of it gives - an array of
      well-formed thoughts, text on which [JSON.parse] throws, or the
      refusal to open it for reading - and whether the process may open
      it for writing, so that [fs.readFile] and [fs.writeFile] throw
      where the permissions of the file say so.  A file that [think]
      creates is open to both.  Unlinking and [fs.stat] need no
      permission on the file itself and succeed on every existing file.
    - Values the code draws from its environment ([Date.now()],
      [Math.random()], [new Date()]) are explicit arguments.
    - [throw]/[try]/[catch] is the [result] type. *)

From Stdlib Require Import ZArith Lia Ascii String DecimalString Sorted.
From stdpp Require Import gmap strings list fin_maps.

Local Open Scope nat_scope.

(* ===================================================================== *)
(** * Strings                                                             *)
(* ===================================================================== *)

Module Str.

Definition code (c : ascii) : N := N_of_ascii c.

Definition in_range (lo hi c : ascii) : bool :=
  ((code lo <=? code c) && (code c <=? code hi))%N.

(** [s.length] *)
Definition len (s : string) : nat := String.length s.

(** [s.substring(0, n)] *)
Fixpoint take (n : nat) (s : string) : string :=
  match n, s with
  | S n', String c r => String c (take n' r)
  | _, _ => EmptyString
  end.

Fixpoint drop (n : nat) (s : string) : string :=
  match n, s with
  | S n', String _ r => drop n' r
  | _, _ => s
  end.

(** [s.includes(q)]: [q] occurs in [s] as a contiguous substring. *)
Fixpoint includes (s q : string) : bool :=
  String.prefix q s ||
  match s with
  | EmptyString => false
  | String _ r => includes r q
  end.

(** [s.replace(pat, rep)] with a string pattern: only the first
    occurrence is replaced. *)
Fixpoint replace_first (pat rep s : string) : string :=
  if String.prefix pat s then (rep ++ drop (len pat) s)%string
  else match s with
       | EmptyString => EmptyString
       | String c r => String c (replace_first pat rep r)
       end.

(** Code units matched by [\s] (within one byte). *)
Definition is_space (c : ascii) : bool :=
  in_range (ascii_of_nat 9) (ascii_of_nat 13) c
  || Ascii.eqb c " " || Ascii.eqb c (ascii_of_nat 160).

(** [s.split(/\s+/)]: the pieces between maximal runs of white space;
    a leading or trailing run yields an empty piece. *)
Fixpoint split_spaces_from (s cur : string) (in_run : bool) : list string :=
  match s with
  | EmptyString => [cur]
  | String c r =>
      if is_space c then
        if in_run then split_spaces_from r cur true
        else cur :: split_spaces_from r EmptyString true
      else split_spaces_from r (cur ++ String c EmptyString)%string false
  end.

Definition split_spaces (s : string) : list string :=
  split_spaces_from s EmptyString false.

(** [s.toLowerCase()] on one-byte code units: A-Z, and the Latin-1
    capitals 0xC0-0xDE except the multiplication sign 0xD7. *)
Definition lower_char (c : ascii) : ascii :=
  if in_range "A" "Z" c
     || (in_range (ascii_of_nat 192) (ascii_of_nat 222) c
         && negb (Ascii.eqb c (ascii_of_nat 215)))
  then ascii_of_N (code c + 32)
  else c.

Fixpoint toLowerCase (s : string) : string :=
  match s with
  | EmptyString => EmptyString
  | String c r => String (lower_char c) (toLowerCase r)
  end.

(** JavaScript truthiness of a string. *)
Definition truthy (s : string) : bool :=
  match s with EmptyString => false | _ => true end.

End Str.

(* ===================================================================== *)
(** * Name codec                                                          *)
(* ===================================================================== *)

(** [throw new Error(msg)] / normal return. *)
Inductive result (A : Type) : Type :=
| Ok (a : A)
| Throw (message : string).
Arguments Ok {A} a.
Arguments Throw {A} message.

(** The character class [[a-zA-Z0-9_-]]. *)
Definition is_name_char (c : ascii) : bool :=
  Str.in_range "a" "z" c || Str.in_range "A" "Z" c || Str.in_range "0" "9" c
  || Ascii.eqb c "_" || Ascii.eqb c "-".

(** [new RegExp(SESSION_NAME_PATTERN).test(s)] for the default pattern
    [^[a-zA-Z0-9_-]+(:[a-zA-Z0-9_-]+){2,}$], as the deterministic scan the
    pattern denotes: [groups] counts the [(:segment)] groups closed or
    opened so far, [seg_open] tells whether the current segment already
    holds a character. *)
Fixpoint pattern_scan (s : string) (groups : nat) (seg_open : bool) : bool :=
  match s with
  | EmptyString => seg_open && (2 <=? groups)
  | String c r =>
      if is_name_char c then pattern_scan r groups true
      else if Ascii.eqb c ":" then seg_open && pattern_scan r (S groups) false
      else false
  end.

Definition SESSION_NAME_PATTERN_test (s : string) : bool := pattern_scan s 0 false.

Definition invalid_name_message : string :=
  "Invalid session name format. Expected format: category:name:subcategory (e.g., thesis:NVDA:ai_dominance)".

Definition validateSessionName (sessionName : string) : result string :=
  if SESSION_NAME_PATTERN_test sessionName then Ok sessionName
  else Throw invalid_name_message.

(** [s.replace(/_+/g, '_')] *)
Fixpoint collapse_underscores (s : string) : string :=
  match s with
  | EmptyString => EmptyString
  | String c r =>
      match r with
      | String c' _ =>
          if Ascii.eqb c "_" && Ascii.eqb c' "_" then collapse_underscores r
          else String c (collapse_underscores r)
      | EmptyString => String c EmptyString
      end
  end.

(** [s.replace(/:/g, '___')] *)
Fixpoint replace_colons (s : string) : string :=
  match s with
  | EmptyString => EmptyString
  | String c r =>
      if Ascii.eqb c ":"
      then String "_" (String "_" (String "_" (replace_colons r)))
      else String c (replace_colons r)
  end.

(** The class of file-name-unsafe code units: less-than, greater-than,
    colon, double quote (code 34), slash, backslash, bar, question mark,
    star, and the control codes 0 to 31. *)
Definition is_unsafe_char (c : ascii) : bool :=
  Ascii.eqb c "<" || Ascii.eqb c ">" || Ascii.eqb c ":"
  || Ascii.eqb c (ascii_of_nat 34) || Ascii.eqb c "/" || Ascii.eqb c "\"
  || Ascii.eqb c "|" || Ascii.eqb c "?" || Ascii.eqb c "*"
  || Str.in_range (ascii_of_nat 0) (ascii_of_nat 31) c.

(** The global replacement of every unsafe code unit by an underscore. *)
Fixpoint replace_unsafe (s : string) : string :=
  match s with
  | EmptyString => EmptyString
  | String c r =>
      String (if is_unsafe_char c then "_"%char else c) (replace_unsafe r)
  end.

Definition sanitizeSessionName (sessionName : string) : string :=
  let sanitized := collapse_underscores sessionName in
  let sanitized := replace_colons sanitized in
  let sanitized := replace_unsafe sanitized in
  sanitized.

(** [s.replace(/___/g, ':')]: leftmost, non-overlapping matches. *)
Fixpoint restore_colons (s : string) : string :=
  match s with
  | EmptyString => EmptyString
  | String c1 r1 =>
      match r1 with
      | String c2 (String c3 r3) =>
          if Ascii.eqb c1 "_" && Ascii.eqb c2 "_" && Ascii.eqb c3 "_"
          then String ":" (restore_colons r3)
          else String c1 (restore_colons r1)
      | _ => String c1 (restore_colons r1)
      end
  end.

Definition desanitizeFilename (filename : string) : string :=
  let name := Str.replace_first ".json" EmptyString filename in
  restore_colons name.

(** The file name the store uses: [`${sanitized}.json`]. *)
Definition session_file (sessionName : string) : string :=
  (sanitizeSessionName sessionName ++ ".json")%string.

(* ===================================================================== *)
(** * Data model                                                          *)
(* ===================================================================== *)

Inductive Mode := linear | creative | critical | strategic | empathetic.

Definition mode_name (m : Mode) : string :=
  match m with
  | linear => "linear" | creative => "creative" | critical => "critical"
  | strategic => "strategic" | empathetic => "empathetic"
  end.

Inductive RelationshipType :=
  builds_on | supports | contradicts | refines | synthesizes.

Definition relationship_name (r : RelationshipType) : string :=
  match r with
  | builds_on => "builds_on" | supports => "supports"
  | contradicts => "contradicts" | refines => "refines"
  | synthesizes => "synthesizes"
  end.

#[global] Instance Mode_eq_dec : EqDecision Mode.
Proof. solve_decision. Defined.

#[global] Instance RelationshipType_eq_dec : EqDecision RelationshipType.
Proof. solve_decision. Defined.

(** An entry of [relationships_in] / [relationships_out]:
    [{ thought_id, relationship_type }]. *)
Record relationship := Relationship {
  thought_id : string;
  rel_type : RelationshipType
}.

#[global] Instance relationship_eq_dec : EqDecision relationship.
Proof. solve_decision. Defined.

(** A stored thought.  [timestamp] is the instant the ISO string denotes,
    in milliseconds. *)
Record thought := Thought {
  id : string;
  content : string;
  mode : Mode;
  tags : list string;
  timestamp : Z;
  relates_to : option string;
  relationship_type : option RelationshipType;
  relationships_in : list relationship;
  relationships_out : list relationship
}.

(** [thoughts.find(t => t.id === i)] *)
Definition find_thought (i : string) (thoughts : list thought) : option thought :=
  List.find (fun t => String.eqb (id t) i) thoughts.

(** [substring(0, n) + (length > n ? "..." : "")] *)
Definition preview (n : nat) (s : string) : string :=
  (Str.take n s ++ (if (n <? Str.len s)%nat then "..." else EmptyString))%string.

(** Decimal rendering of a number inside a template literal. *)
Definition show_nat (n : nat) : string :=
  DecimalString.NilZero.string_of_uint (Nat.to_uint n).

Definition show_Z (z : Z) : string :=
  DecimalString.NilZero.string_of_int (Z.to_int z).

(* ===================================================================== *)
(** * Session store                                                       *)
(* ===================================================================== *)

(** What a read of a file of the session directory gives: a JSON array
    of thoughts, text on which [JSON.parse] throws, or - [Unreadable] -
    the refusal to open the file for reading, whatever it holds. *)
Inductive file_content :=
| JsonThoughts (thoughts : list thought)
| Unparseable
| Unreadable.

(** A file: what a read gives, whether the process may open it for
    writing, and its dates. *)
Record file := File {
  data : file_content;
  writable : bool;
  birthtime : Z;
  mtime : Z
}.

(** The session directory, keyed by the name of a file within it; the
    messages of the errors below give that name where the source's give
    the joined path. *)
Abbreviation store := (gmap string file).

Module Fs.

Definition readFile (fs : store) (path : string) : result file_content :=
  match fs !! path with
  | None => Throw ("ENOENT: no such file or directory, open '" ++ path ++ "'")
  | Some f =>
      match data f with
      | Unreadable => Throw ("EACCES: permission denied, open '" ++ path ++ "'")
      | d => Ok d
      end
  end.

Definition JSON_parse (d : file_content) : result (list thought) :=
  match d with
  | JsonThoughts ts => Ok ts
  | _ => Throw "Unexpected token in JSON"
  end.

(** [fs.writeFile(path, JSON.stringify(thoughts))] at clock [clock]: a
    new file is created open to reading and writing; an existing one
    keeps its permissions and its birth time, so that a file closed to
    reading stays so with its new text, and one closed to writing makes
    the call throw. *)
Definition writeFile (fs : store) (path : string) (thoughts : list thought)
    (clock : Z) : result store :=
  match fs !! path with
  | None => Ok (<[path := File (JsonThoughts thoughts) true clock clock]> fs)
  | Some f =>
      if writable f then
        let d := match data f with
                 | Unreadable => Unreadable
                 | _ => JsonThoughts thoughts
                 end in
        Ok (<[path := File d true (birthtime f) clock]> fs)
      else Throw ("EACCES: permission denied, open '" ++ path ++ "'")
  end.

Definition unlink (fs : store) (path : string) : result store :=
  match fs !! path with
  | None => Throw ("ENOENT: no such file or directory, unlink '" ++ path ++ "'")
  | Some _ => Ok (delete path fs)
  end.

(** [fs.stat(path)]: [(birthtime, mtime)], or a throw. *)
Definition stat (fs : store) (path : string) : result (Z * Z) :=
  match fs !! path with
  | None => Throw ("ENOENT: no such file or directory, stat '" ++ path ++ "'")
  | Some f => Ok (birthtime f, mtime f)
  end.

End Fs.

Definition loadSession (fs : store) (sessionName : string) : list thought :=
  let sanitized := sanitizeSessionName sessionName in
  let sessionPath := (sanitized ++ ".json")%string in
  match Fs.readFile fs sessionPath with
  | Ok d =>
      match Fs.JSON_parse d with
      | Ok thoughts => thoughts
      | Throw _ => []
      end
  | Throw _ => []
  end.

(** The [catch] of [saveSession] logs and throws the error again. *)
Definition saveSession (fs : store) (sessionName : string)
    (thoughts : list thought) (clock : Z) : result store :=
  let sanitized := sanitizeSessionName sessionName in
  let sessionPath := (sanitized ++ ".json")%string in
  Fs.writeFile fs sessionPath thoughts clock.

(* ===================================================================== *)
(** * Relationship graph: the reasoning chain                             *)
(* ===================================================================== *)

Record chain_entry := ChainEntry {
  ce_id : string;
  ce_content_preview : string;
  ce_mode : Mode;
  ce_timestamp : Z;
  ce_relationship_type : option RelationshipType;
  ce_truncated : bool;
  ce_note : option string
}.

Definition entry_of (t : thought) : chain_entry :=
  ChainEntry (id t) (preview 120 (content t)) (mode t) (timestamp t)
             (relationship_type t) false None.

(** [thought.relationship_type === 'builds_on' && thought.relates_to]:
    the id to continue with, if any. *)
Definition builds_on_target (t : thought) : option string :=
  match relationship_type t, relates_to t with
  | Some builds_on, Some r => if Str.truthy r then Some r else None
  | _, _ => None
  end.

(** The [while] loop of [buildReasoningChain].  Every iteration that goes
    on has lengthened [chain] by one and the guard stops at length 20, so
    20 iterations always suffice ([chain_loop_fuel] below). *)
Fixpoint chain_loop (fuel : nat) (thoughts : list thought)
    (visited : gset string) (currentId : string) (chain : list chain_entry)
    : list chain_entry :=
  match fuel with
  | 0 => chain
  | S fuel' =>
      if Str.truthy currentId && bool_decide (currentId ∉ visited)
         && (length chain <? 20)
      then
        match find_thought currentId thoughts with
        | None => chain
        | Some t =>
            let chain' := entry_of t :: chain in
            match builds_on_target t with
            | Some r => chain_loop fuel' thoughts ({[currentId]} ∪ visited) r chain'
            | None => chain'
            end
        end
      else chain
  end.

Record chain_result := ChainResult {
  chain : list chain_entry;
  total_length : nat;
  truncated : bool
}.

Definition maxChainLength : nat := 7.

Definition truncation_note (omitted : nat) : string :=
  ("... (" ++ show_nat omitted ++ " earlier thoughts in chain)")%string.

(** [{...e, truncated: true, note: ...}] *)
Definition mark_truncated (omitted : nat) (e : chain_entry) : chain_entry :=
  ChainEntry (ce_id e) (ce_content_preview e) (ce_mode e) (ce_timestamp e)
             (ce_relationship_type e) true (Some (truncation_note omitted)).

(** [chain.slice(-n)] *)
Definition slice_last {A} (n : nat) (l : list A) : list A :=
  drop (length l - n) l.

Definition buildReasoningChain (thoughtId : string) (thoughts : list thought)
    : chain_result :=
  let chain := chain_loop 20 thoughts ∅ thoughtId [] in
  if maxChainLength <? length chain then
    let truncatedChain := slice_last maxChainLength chain in
    let truncatedChain :=
      match truncatedChain with
      | e :: rest => mark_truncated (length chain - maxChainLength) e :: rest
      | [] => []
      end in
    ChainResult truncatedChain (length chain) true
  else ChainResult chain (length chain) false.

(* ===================================================================== *)
(** * Search and ranking                                                  *)
(* ===================================================================== *)

(** [thought.relates_to || thought.relationship_type] *)
Definition participates (t : thought) : bool :=
  match relates_to t with
  | Some r => Str.truthy r || bool_decide (is_Some (relationship_type t))
  | None => bool_decide (is_Some (relationship_type t))
  end.

Definition calculateRelevanceScore (t : thought) (queryLower : string) : Z :=
  let score := 0%Z in
  let content := Str.toLowerCase (content t) in
  let score := if Str.includes content queryLower then (score + 10)%Z else score in
  let queryWords := Str.split_spaces queryLower in
  let score :=
    fold_left (fun score word =>
                 if Str.includes content word then (score + 2)%Z else score)
              queryWords score in
  let score :=
    fold_left (fun score tag =>
                 if Str.includes (Str.toLowerCase tag) queryLower
                 then (score + 5)%Z else score)
              (tags t) score in
  let score :=
    if Str.includes (Str.toLowerCase (mode_name (mode t))) queryLower
    then (score + 3)%Z else score in
  let score := if participates t then (score + 1)%Z else score in
  score.

(** The filter predicate shared by the search tools. *)
Definition matches_query (queryLower : string) (t : thought) : bool :=
  let contentMatch := Str.includes (Str.toLowerCase (content t)) queryLower in
  let tagMatch :=
    existsb (fun tag => Str.includes (Str.toLowerCase tag) queryLower) (tags t) in
  let modeMatch := Str.includes (Str.toLowerCase (mode_name (mode t))) queryLower in
  contentMatch || tagMatch || modeMatch.

Record search_result := SearchResult {
  sr_id : string;
  sr_content_preview : string;
  sr_mode : Mode;
  sr_tags : list string;
  sr_timestamp : Z;
  sr_relates_to : option string;
  sr_relationship_type : option RelationshipType;
  relevance_score : Z
}.

Definition result_of (queryLower : string) (t : thought) : search_result :=
  SearchResult (id t) (preview 150 (content t)) (mode t) (tags t) (timestamp t)
               (relates_to t) (relationship_type t)
               (calculateRelevanceScore t queryLower).

(** [Array.prototype.sort(cmp)], which the language standard requires to be
    stable: each element is placed before the first element that does not
    have to precede it. *)
Fixpoint sort_insert {A} (cmp : A → A → Z) (x : A) (l : list A) : list A :=
  match l with
  | [] => [x]
  | y :: r => if (cmp x y <=? 0)%Z then x :: y :: r else y :: sort_insert cmp x r
  end.

Fixpoint array_sort {A} (cmp : A → A → Z) (l : list A) : list A :=
  match l with
  | [] => []
  | x :: r => sort_insert cmp x (array_sort cmp r)
  end.

(** [l.slice(from, to)] for natural bounds. *)
Definition array_slice {A} (from to : nat) (l : list A) : list A :=
  take (to - from) (drop from l).

(** The comparator [(a, b) => b.relevance_score - a.relevance_score]. *)
Definition by_score_desc (a b : search_result) : Z :=
  (relevance_score b - relevance_score a)%Z.

(** The pipeline [filter/map/sort/slice] of [search_in_session]. *)
Definition ranked_matches (thoughts : list thought) (queryLower : string)
    : list search_result :=
  array_sort by_score_desc
    (map (result_of queryLower) (List.filter (matches_query queryLower) thoughts)).

Definition searchResults (thoughts : list thought) (query : string)
    (limit offset : nat) : list search_result :=
  let queryLower := Str.toLowerCase query in
  array_slice offset (offset + limit) (ranked_matches thoughts queryLower).

(* ===================================================================== *)
(** * Tool payloads                                                       *)
(* ===================================================================== *)

Inductive related_context :=
| RelatedThought (relationship : RelationshipType) (related_thought_id : string)
                 (related_content : string) (related_mode : Mode)
| BuildsOnEnhanced (chain_preview conflicts supports_ : list string).

Record think_response := ThinkResponse {
  thinking : string;
  thoughtId : string;
  tr_sessionName : string;
  tr_mode : Mode;
  tr_tags : list string;
  tr_timestamp : Z;
  thoughtCount : nat;
  preserved : bool;
  tr_related_context : option related_context;
  reasoning_chain : option chain_result;
  isNewSession : bool
}.

Record search_response := SearchResponse {
  sp_sessionName : string;
  sp_query : string;
  results : list search_result;
  count : nat;
  sp_offset : nat;
  sp_limit : nat;
  sp_timestamp : Z
}.

Record view_response := ViewResponse {
  vr_sessionName : string;
  vr_thoughts : list thought;
  vr_count : nat;
  totalThoughts : nat;
  vr_limit : nat;
  vr_offset : nat;
  hasMore : bool;
  vr_timestamp : Z
}.

Record rename_response := RenameResponse {
  rn_message : string;
  oldName : string;
  newName : string;
  rn_thoughtCount : nat;
  rn_timestamp : Z
}.

Record info_response := InfoResponse {
  in_sessionName : string;
  exists_ : bool;
  in_thoughtCount : nat;
  firstThought : option Z;
  lastThought : option Z;
  created : option Z;
  lastModified : option Z;
  modes : list Mode;
  in_tags : list string;
  in_timestamp : Z
}.

(** The JSON text a tool returns.  [ErrorPayload e fields] is
    [{ error: e, ...fields }]; the other constructors are the success
    shapes ([StatusSuccess] is [{ status: "success", message, timestamp }]). *)
Inductive payload :=
| ErrorPayload (error : string) (fields : list (string * string))
| ThinkOk (r : think_response)
| SearchOk (r : search_response)
| ViewOk (r : view_response)
| StatusSuccess (message : string) (timestamp : Z)
| RenameOk (r : rename_response)
| InfoOk (r : info_response).

(* ===================================================================== *)
(** * Tool: think                                                         *)
(* ===================================================================== *)

Record think_args := ThinkArgs {
  reasoning : string;
  sessionName : option string;
  mode_arg : option Mode;
  tags_arg : option (list string);
  relates_to_arg : option string;
  relationship_type_arg : option RelationshipType
}.

(** What one call of [think] reads from its environment, in the order of
    the reads: [Date.now()] and the random token of the temporary name,
    [Date.now()] and the random token of the thought id, [new Date()] of
    the thought, the clock of the file write, [new Date()] of the
    response. *)
Record think_env := ThinkEnv {
  name_clock : Z;
  name_random : string;
  id_clock : Z;
  id_random : string;
  thought_clock : Z;
  save_clock : Z;
  response_clock : Z
}.

Definition generateRandomSessionName (timestamp : Z) (random : string) : string :=
  ("TEMP:" ++ show_Z timestamp ++ ":" ++ random)%string.

Definition new_thought_id (env : think_env) : string :=
  ("thought_" ++ show_Z (id_clock env) ++ "_" ++ id_random env)%string.

(** [relates_to && relationship_type]: both supplied and truthy. *)
Definition link_requested (args : think_args)
    : option (string * RelationshipType) :=
  match relates_to_arg args, relationship_type_arg args with
  | Some r, Some ty => if Str.truthy r then Some (r, ty) else None
  | _, _ => None
  end.

(** [referencedThought.relationships_in.push(rel)], where
    [referencedThought] is the first element of [thoughts] with the given
    id: the array element itself is updated. *)
Fixpoint push_relationship_in (target : string) (rel : relationship)
    (thoughts : list thought) : list thought :=
  match thoughts with
  | [] => []
  | t :: rest =>
      if String.eqb (id t) target
      then Thought (id t) (content t) (mode t) (tags t) (timestamp t)
                   (relates_to t) (relationship_type t)
                   (relationships_in t ++ [rel]) (relationships_out t) :: rest
      else t :: push_relationship_in target rel rest
  end.

(** [t.relationships_out.some(rel => rel.thought_id === target &&
    rel.relationship_type === ty)] *)
Definition declares (target : string) (ty : RelationshipType) (t : thought) : bool :=
  existsb (fun rel => String.eqb (thought_id rel) target
                      && bool_decide (rel_type rel = ty))
          (relationships_out t).

Definition excerpt (n : nat) (s : string) : string :=
  (Str.take n s ++ "...")%string.

(** The context block built after the save. *)
Definition related_context_of (thoughts : list thought) (target : string)
    (ty : RelationshipType) : option related_context * option chain_result :=
  match find_thought target thoughts with
  | None => (None, None)
  | Some related_thought =>
      if bool_decide (ty = builds_on) then
        let built := buildReasoningChain target thoughts in
        let conflicts := take 3 (List.filter (declares target contradicts) thoughts) in
        let supports := take 3 (List.filter (declares target supports) thoughts) in
        (Some (BuildsOnEnhanced
                 (map ce_content_preview (take 5 (chain built)))
                 (map (fun t => excerpt 80 (content t)) conflicts)
                 (map (fun t => excerpt 80 (content t)) supports)),
         Some built)
      else
        (Some (RelatedThought ty target (excerpt 200 (content related_thought))
                              (mode related_thought)),
         None)
  end.

(** The body of the tool once the session is determined: append to
    [thoughts], or return an error payload without saving; a failed save
    ends in the handler's [catch], which answers with the error's message.
    ([ensureSessionDir] only creates the directory and changes no file.) *)
Definition think_in_session (fs : store) (args : think_args) (env : think_env)
    (session : string) (isNewSession : bool) : store * payload :=
  let thoughts := loadSession fs session in
  let thoughtId := new_thought_id env in
  let thoughtObj :=
    Thought thoughtId (reasoning args) (default linear (mode_arg args))
            (default [] (tags_arg args)) (thought_clock env)
            None None [] [] in
  let finish (thoughts : list thought) (thoughtObj : thought) :=
    let thoughts := thoughts ++ [thoughtObj] in
    match saveSession fs session thoughts (save_clock env) with
    | Throw message => (fs, ErrorPayload message [])
    | Ok fs' =>
        let '(related, chain) :=
          match link_requested args with
          | Some (target, ty) => related_context_of thoughts target ty
          | None => (None, None)
          end in
        (fs', ThinkOk (ThinkResponse (reasoning args) thoughtId session
                         (default linear (mode_arg args))
                         (default [] (tags_arg args)) (response_clock env)
                         (length thoughts) true related chain isNewSession))
    end in
  match link_requested args with
  | Some (target, ty) =>
      if String.eqb target thoughtId then
        (fs, ErrorPayload "Cannot reference self" [])
      else
        match find_thought target thoughts with
        | None =>
            (fs, ErrorPayload "Referenced thought not found"
                              [("thought_id", target)])
        | Some referencedThought =>
            if (timestamp referencedThought >? timestamp thoughtObj)%Z then
              (fs, ErrorPayload "Cannot reference future thoughts" [])
            else
              finish
                (push_relationship_in target (Relationship thoughtId ty) thoughts)
                (Thought thoughtId (reasoning args) (default linear (mode_arg args))
                         (default [] (tags_arg args)) (thought_clock env)
                         (Some target) (Some ty) []
                         [Relationship target ty])
        end
  | None => finish thoughts thoughtObj
  end.

Definition think (fs : store) (args : think_args) (env : think_env)
    : store * payload :=
  match sessionName args with
  | Some session =>
      if Str.truthy session then
        match validateSessionName session with
        | Throw message => (fs, ErrorPayload message [])
        | Ok _ =>
            let existingThoughts := loadSession fs session in
            think_in_session fs args env session (length existingThoughts =? 0)
        end
      else
        think_in_session fs args env
          (generateRandomSessionName (name_clock env) (name_random env)) true
  | None =>
      think_in_session fs args env
        (generateRandomSessionName (name_clock env) (name_random env)) true
  end.

(* ===================================================================== *)
(** * Tools: view, delete, rename, search, info                           *)
(* ===================================================================== *)

(** [limit || SESSION_MAX_RETURN] *)
Definition view_session (SESSION_MAX_RETURN : nat) (fs : store)
    (sessionName : string) (limit : option nat) (offset : nat) (clock : Z)
    : payload :=
  match validateSessionName sessionName with
  | Throw message => ErrorPayload "Failed to view session" [("message", message)]
  | Ok _ =>
      let thoughts := loadSession fs sessionName in
      let maxReturn :=
        match limit with
        | Some (S n) => S n
        | _ => SESSION_MAX_RETURN
        end in
      let paginatedThoughts := array_slice offset (offset + maxReturn) thoughts in
      ViewOk (ViewResponse sessionName paginatedThoughts
                (length paginatedThoughts) (length thoughts) maxReturn offset
                (offset + maxReturn <? length thoughts) clock)
  end.

Definition delete_session (fs : store) (sessionName : string) (clock : Z)
    : store * payload :=
  match validateSessionName sessionName with
  | Throw message =>
      (fs, ErrorPayload "Failed to delete session" [("message", message)])
  | Ok _ =>
      let sanitized := sanitizeSessionName sessionName in
      let sessionPath := (sanitized ++ ".json")%string in
      match Fs.unlink fs sessionPath with
      | Throw message =>
          (fs, ErrorPayload "Failed to delete session" [("message", message)])
      | Ok fs' =>
          (fs', StatusSuccess
                  ("Session " ++ sessionName ++ " deleted successfully") clock)
      end
  end.

Definition rename_session (fs : store) (oldSessionName newSessionName : string)
    (save_clock clock : Z) : store * payload :=
  match validateSessionName oldSessionName with
  | Throw message =>
      (fs, ErrorPayload "Failed to rename session" [("message", message)])
  | Ok _ =>
  match validateSessionName newSessionName with
  | Throw message =>
      (fs, ErrorPayload "Failed to rename session" [("message", message)])
  | Ok _ =>
      let thoughts := loadSession fs oldSessionName in
      if length thoughts =? 0 then
        (fs, ErrorPayload "Session not found"
               [("message",
                 ("Session " ++ oldSessionName ++ " does not exist or is empty")%string)])
      else
        match saveSession fs newSessionName thoughts save_clock with
        | Throw message =>
            (fs, ErrorPayload "Failed to rename session" [("message", message)])
        | Ok fs1 =>
            let oldSanitized := sanitizeSessionName oldSessionName in
            let oldPath := (oldSanitized ++ ".json")%string in
            match Fs.unlink fs1 oldPath with
            | Throw message =>
                (fs1, ErrorPayload "Failed to rename session" [("message", message)])
            | Ok fs2 =>
                (fs2, RenameOk (RenameResponse
                        ("Session renamed from " ++ oldSessionName ++ " to "
                           ++ newSessionName)
                        oldSessionName newSessionName (length thoughts) clock))
            end
        end
  end
  end.

Definition search_in_session (fs : store) (sessionName query : string)
    (limit offset : nat) (clock : Z) : payload :=
  match validateSessionName sessionName with
  | Throw message =>
      ErrorPayload "Failed to search in session" [("message", message)]
  | Ok _ =>
      let thoughts := loadSession fs sessionName in
      if length thoughts =? 0 then
        ErrorPayload "Session not found or empty" [("sessionName", sessionName)]
      else
        let searchResults := searchResults thoughts query limit offset in
        SearchOk (SearchResponse sessionName query searchResults
                    (length searchResults) offset limit clock)
  end.

(** [[...new Set(l)]]: the distinct elements in order of first occurrence. *)
Fixpoint set_order {A} `{EqDecision A} (seen l : list A) : list A :=
  match l with
  | [] => []
  | x :: r =>
      if bool_decide (x ∈ seen) then set_order seen r
      else x :: set_order (x :: seen) r
  end.

Definition get_session_info (fs : store) (sessionName : string) (clock : Z)
    : payload :=
  match validateSessionName sessionName with
  | Throw message =>
      ErrorPayload "Failed to get session info" [("message", message)]
  | Ok _ =>
      let thoughts := loadSession fs sessionName in
      let sanitized := sanitizeSessionName sessionName in
      let sessionPath := (sanitized ++ ".json")%string in
      let stats :=
        match Fs.stat fs sessionPath with
        | Ok st => Some st
        | Throw _ => None
        end in
      InfoOk (InfoResponse sessionName
                ((0 <? length thoughts) || bool_decide (is_Some stats))
                (length thoughts)
                (timestamp <$> head thoughts)
                (timestamp <$> last thoughts)
                (fst <$> stats) (snd <$> stats)
                (set_order [] (map mode thoughts))
                (set_order [] (flat_map tags thoughts))
                clock)
  end.


(* ===================================================================== *)
(** * Auxiliary notions used by the statements                            *)
(* ===================================================================== *)

(** Every code unit of the string satisfies [p]. *)
Fixpoint string_forall (p : ascii → bool) (s : string) : bool :=
  match s with
  | EmptyString => true
  | String c r => p c && string_forall p r
  end.

(** The alphabet of valid names: the segment class and the colon. *)
Definition name_alphabet (c : ascii) : bool :=
  is_name_char c || Ascii.eqb c ":".

(** No underscore is followed by an underscore or by a colon. *)
Fixpoint separator_free (s : string) : bool :=
  match s with
  | EmptyString => true
  | String c r =>
      match r with
      | String c' _ =>
          negb (Ascii.eqb c "_" && (Ascii.eqb c' "_" || Ascii.eqb c' ":"))
          && separator_free r
      | EmptyString => true
      end
  end.

(** The thoughts of a list paired with their positions, counted from [k]. *)
Fixpoint indexed_from (k : nat) (thoughts : list thought) : list (nat * thought) :=
  match thoughts with
  | [] => []
  | t :: rest => (k, t) :: indexed_from (S k) rest
  end.

(** [a] may stand before [b] in a ranking for [queryLower]: its score is
    not lower, and on equal scores it is stored earlier. *)
Definition ranked_before (queryLower : string) (a b : nat * thought) : Prop :=
  (calculateRelevanceScore b.2 queryLower ≤ calculateRelevanceScore a.2 queryLower)%Z
  ∧ (calculateRelevanceScore a.2 queryLower = calculateRelevanceScore b.2 queryLower
     → a.1 < b.1).

(** ** Sample data for the concrete instances *)

Definition plain_thought (i c : string) (m : Mode) (tg : list string) (ts : Z)
    : thought :=
  Thought i c m tg ts None None [] [].

Definition sample_session : list thought :=
  [ plain_thought "thought_1_aaaaa" "CUDA keeps NVIDIA ahead" linear ["amd"] 1;
    plain_thought "thought_2_bbbbb" "AMD ships the MI300X" critical [] 2;
    plain_thought "thought_3_ccccc" "Pricing power is intact" linear [] 3;
    plain_thought "thought_4_ddddd" "amd gains share" creative ["risk"] 4 ].

Definition sample_name : string := "thesis:NVDA:ai_dominance".

Definition sample_store : store :=
  {[ "thesis___NVDA___ai_dominance.json" := File (JsonThoughts sample_session) true 1 4 ]}.

(** ** The ancestry of a thought along [builds_on] edges *)

(** The thoughts met from [currentId] backwards along [builds_on] edges,
    nearest first, stopping at a missing thought, at the end of the edges
    or at an id already in [visited]; at most [fuel] thoughts. *)
Fixpoint ancestry_walk (fuel : nat) (thoughts : list thought)
    (visited : gset string) (currentId : string) : list thought :=
  match fuel with
  | 0 => []
  | S fuel' =>
      if Str.truthy currentId && bool_decide (currentId ∉ visited) then
        match find_thought currentId thoughts with
        | None => []
        | Some t =>
            t :: match builds_on_target t with
                 | Some r => ancestry_walk fuel' thoughts ({[currentId]} ∪ visited) r
                 | None => []
                 end
        end
      else []
  end.

(** The whole ancestry chain of [startId], oldest first, with no bound on
    its depth: no thought is met twice, so [length thoughts] steps exhaust
    the walk ([ancestry_walk_enough] below). *)
Definition ancestry (startId : string) (thoughts : list thought) : list chain_entry :=
  map entry_of (rev (ancestry_walk (length thoughts) thoughts ∅ startId)).

(** The oldest retained entry carries the truncation marker. *)
Definition mark_oldest (omitted : nat) (l : list chain_entry) : list chain_entry :=
  match l with
  | e :: rest => mark_truncated omitted e :: rest
  | [] => []
  end.

(** ** A session grown by [think]: [n] thoughts, each building on the last *)

Definition step_env (n : nat) : think_env :=
  ThinkEnv (Z.of_nat n) "r" (Z.of_nat n) "aaaaa" (Z.of_nat n) (Z.of_nat n) (Z.of_nat n).

Definition step_id (n : nat) : string := new_thought_id (step_env n).

Fixpoint grown_store (n : nat) : store :=
  match n with
  | 0 => ∅
  | S k =>
      fst (think (grown_store k)
             (ThinkArgs "step" (Some sample_name) None None
                (if k =? 0 then None else Some (step_id k))
                (if k =? 0 then None else Some builds_on))
             (step_env (S k)))
  end.

Definition grown_session (n : nat) : list thought :=
  loadSession (grown_store n) sample_name.

(** ** The session a call of [think] works on, and what it appends *)

(** The session name [think] settles on: the validated argument, or a
    generated temporary name when the argument is missing or empty. *)
Definition session_of (args : think_args) (env : think_env) : result string :=
  match sessionName args with
  | Some session =>
      if Str.truthy session then validateSessionName session
      else Ok (generateRandomSessionName (name_clock env) (name_random env))
  | None => Ok (generateRandomSessionName (name_clock env) (name_random env))
  end.

(** The record [think] appends: with its link when one is recorded. *)
Definition new_thought (args : think_args) (env : think_env)
    (link : option (string * RelationshipType)) : thought :=
  Thought (new_thought_id env) (reasoning args) (default linear (mode_arg args))
          (default [] (tags_arg args)) (thought_clock env)
          (fst <$> link) (snd <$> link) []
          (match link with
           | Some (target, ty) => [Relationship target ty]
           | None => []
           end).

(** The thought list [think] saves on success. *)
Definition appended (thoughts : list thought) (args : think_args)
    (env : think_env) : list thought :=
  match link_requested args with
  | Some (target, ty) =>
      push_relationship_in target (Relationship (new_thought_id env) ty) thoughts
      ++ [new_thought args env (Some (target, ty))]
  | None => thoughts ++ [new_thought args env None]
  end.

Definition is_link_error (p : payload) : Prop :=
  ∃ fields, p = ErrorPayload "Cannot reference self" fields
            ∨ p = ErrorPayload "Referenced thought not found" fields
            ∨ p = ErrorPayload "Cannot reference future thoughts" fields.

(** ** Reachable stores and the consistency of the relationship lists *)

(** For all thoughts [A] and [B] of the list and every type [T]: [B]
    lists an inbound [{A, T}] exactly when [A] lists an outbound [{B, T}]. *)
Definition links_consistent (thoughts : list thought) : Prop :=
  ∀ A B T, A ∈ thoughts → B ∈ thoughts →
    (Relationship (id A) T ∈ relationships_in B
     ↔ Relationship (id B) T ∈ relationships_out A).

(** The id generated for the new thought (current time in milliseconds
    plus a random suffix) does not occur in the session it is appended to. *)
Definition fresh_id (fs : store) (args : think_args) (env : think_env) : Prop :=
  ∀ session, session_of args env = Ok session →
    new_thought_id env ∉ map id (loadSession fs session).

(** The stores reached from the empty directory by successful calls of
    [think]. *)
Inductive reachable : store → Prop :=
| reachable_empty : reachable ∅
| reachable_think fs args env fs' r :
    reachable fs →
    fresh_id fs args env →
    think fs args env = (fs', ThinkOk r) →
    reachable fs'.

(** What the proof of consistency carries along: ids are pairwise
    distinct and every relationship entry names a stored thought. *)
Definition well_linked (thoughts : list thought) : Prop :=
  NoDup (map id thoughts)
  ∧ (∀ t rel, t ∈ thoughts →
       rel ∈ relationships_in t ++ relationships_out t →
       thought_id rel ∈ map id thoughts)
  ∧ links_consistent thoughts.

(** How [push_relationship_in] changes one thought. *)
Definition pushed (target : string) (rel : relationship) (t t' : thought) : Prop :=
  id t' = id t
  ∧ relationships_out t' = relationships_out t
  ∧ relationships_in t'
    = if decide (id t = target) then relationships_in t ++ [rel]
      else relationships_in t.

(** The process may write the file at [path]: it is absent, or present
    and open to writing. *)
Definition can_write (fs : store) (path : string) : bool :=
  match fs !! path with
  | Some f => writable f
  | None => true
  end.

(** The process may read what it writes at [path]: the file is absent,
    or present and open to reading. *)
Definition can_read (fs : store) (path : string) : bool :=
  match fs !! path with
  | Some f => match data f with Unreadable => false | _ => true end
  | None => true
  end.

(** What a handler of [think] returns after its save: the error of a
    failed save with the store as it was, or the payload with the store
    the save produced. *)
Definition saved_or_error (fs : store) (saved : result store) (p : payload)
    : store * payload :=
  match saved with
  | Throw message => (fs, ErrorPayload message [])
  | Ok fs' => (fs', p)
  end.

(** ** Stores for the concrete instances of the store properties *)

(** A store holding the sample session and a second, one-thought session. *)
Definition two_sessions : store :=
  <[ "TEMP___1___abc.json" :=
       File (JsonThoughts [plain_thought "thought_9_zzzzz" "scratch" linear [] 9])
            true 9 9 ]>
    sample_store.

(** A store whose only file cannot be parsed. *)
Definition broken_store : store :=
  {[ "thesis___NVDA___ai_dominance.json" := File Unparseable true 1 4 ]}.

(** A store whose only file the process may not open. *)
Definition locked_store : store :=
  {[ "thesis___NVDA___ai_dominance.json" := File Unreadable false 1 4 ]}.

(** A store whose only file the process may write but not read. *)
Definition write_only_store : store :=
  {[ "thesis___NVDA___ai_dominance.json" := File Unreadable true 1 4 ]}.

(** [sample_store] with its file closed to writing. *)
Definition read_only_store : store :=
  {[ "thesis___NVDA___ai_dominance.json" :=
       File (JsonThoughts sample_session) false 1 4 ]}.

(** [two_sessions] with the file of [sample_name] closed to writing. *)
Definition locked_destination : store :=
  <[ "thesis___NVDA___ai_dominance.json" :=
       File (JsonThoughts sample_session) false 1 4 ]> two_sessions.

(** [two_sessions] with the file of [sample_name] open to writing only. *)
Definition write_only_destination : store :=
  <[ "thesis___NVDA___ai_dominance.json" := File Unreadable true 1 4 ]> two_sessions.

(* ===================================================================== *)
(** * Directory listing and the tools built on it                         *)
(* ===================================================================== *)

(** [s.endsWith(suffix)] *)
Fixpoint ends_with (suffix s : string) : bool :=
  String.eqb s suffix ||
  match s with
  | EmptyString => false
  | String _ r => ends_with suffix r
  end.

(** What [fs.readdir(SESSION_DIR)] may return for a store: the names of
    its files, each once, in the order the operating system chooses.  The
    listing is an input of the tools that enumerate the directory. *)
Definition is_listing (fs : store) (dir : list string) : Prop :=
  NoDup dir ∧ ∀ file, file ∈ dir ↔ is_Some (fs !! file).

(** [listSessionFiles], given the directory listing. *)
Definition listSessionFiles (dir : list string) : list string :=
  List.filter (ends_with ".json") dir.

(** Sequencing of computations that may throw: the first throw wins.
    ([list_sessions] runs its entries through [Promise.all], which reports
    whichever failure comes first; the model takes the first in list
    order.) *)
Fixpoint map_result {A B} (f : A → result B) (l : list A) : result (list B) :=
  match l with
  | [] => Ok []
  | x :: r =>
      match f x with
      | Throw message => Throw message
      | Ok y =>
          match map_result f r with
          | Throw message => Throw message
          | Ok ys => Ok (y :: ys)
          end
      end
  end.

Record session_entry := SessionEntry {
  se_sessionName : string;
  se_thoughtCount : nat;
  se_firstThought : option Z;
  se_lastThought : option Z;
  se_lastModified : Z
}.

Record list_response := ListResponse {
  sessions : list session_entry;
  ls_count : nat;
  total : nat;
  ls_limit : nat;
  ls_offset : nat;
  ls_timestamp : Z
}.

Record session_match := SessionMatch {
  sm_sessionName : string;
  matchingThoughts : nat;
  sm_totalThoughts : nat;
  sm_lastModified : Z;
  relevanceScore : nat
}.

Record search_all_response := SearchAllResponse {
  sa_query : string;
  sa_sessions : list session_match;
  sa_count : nat;
  totalMatching : nat;
  sa_offset : nat;
  sa_limit : nat;
  sa_timestamp : Z
}.

Record relationships_response := RelationshipsResponse {
  fr_sessionName : string;
  fr_query : string;
  fr_results : list search_result;
  fr_count : nat;
  fr_timestamp : Z
}.

(** The JSON text returned by the listing tools and by
    [find_thought_relationships]. *)
Inductive tool_payload :=
| ToolError (error : string) (fields : list (string * string))
| ListOk (r : list_response)
| SearchAllOk (r : search_all_response)
| RelationshipsOk (r : relationships_response).

(** One entry of [list_sessions]: the name decoded from the file name,
    the file's modification time, and the thoughts loaded under the
    decoded name.  [loadSession] never throws, so the inner [catch] of
    the source is never entered. *)
Definition session_entry_of (fs : store) (file : string) : result session_entry :=
  let sessionName := desanitizeFilename file in
  match Fs.stat fs file with
  | Throw message => Throw message
  | Ok stats =>
      let thoughts := loadSession fs sessionName in
      Ok (SessionEntry sessionName (length thoughts)
            (timestamp <$> head thoughts) (timestamp <$> last thoughts)
            (snd stats))
  end.

Definition list_sessions (fs : store) (dir : list string) (limit offset : nat)
    (clock : Z) : tool_payload :=
  let files := listSessionFiles dir in
  match map_result (session_entry_of fs) (array_slice offset (offset + limit) files) with
  | Throw message => ToolError "Failed to list sessions" [("message", message)]
  | Ok sessionInfo =>
      ListOk (ListResponse sessionInfo (length sessionInfo) (length files)
                limit offset clock)
  end.

(** The body of the [for] loop of [search_all_sessions]: the summary of
    one file, if any of its thoughts matches. *)
Definition session_match_of (fs : store) (queryLower file : string)
    : result (option session_match) :=
  let sessionName := desanitizeFilename file in
  let thoughts := loadSession fs sessionName in
  let matching := List.filter (matches_query queryLower) thoughts in
  if 0 <? length matching then
    match Fs.stat fs file with
    | Throw message => Throw message
    | Ok stats =>
        Ok (Some (SessionMatch sessionName (length matching) (length thoughts)
                    (snd stats) (length matching)))
    end
  else Ok None.

(** The comparator [(a, b) => b.relevanceScore - a.relevanceScore]. *)
Definition by_matches_desc (a b : session_match) : Z :=
  (Z.of_nat (relevanceScore b) - Z.of_nat (relevanceScore a))%Z.

Definition search_all_sessions (fs : store) (dir : list string) (query : string)
    (limit offset : nat) (clock : Z) : tool_payload :=
  let files := listSessionFiles dir in
  let queryLower := Str.toLowerCase query in
  match map_result (session_match_of fs queryLower) files with
  | Throw message => ToolError "Failed to search all sessions" [("message", message)]
  | Ok found =>
      let matchingSessions := array_sort by_matches_desc (omap (λ m, m) found) in
      let paginatedResults := array_slice offset (offset + limit) matchingSessions in
      SearchAllOk (SearchAllResponse query paginatedResults
                     (length paginatedResults) (length matchingSessions)
                     offset limit clock)
  end.

(** The filter of [find_thought_relationships]. *)
Definition relationship_candidate (queryLower : string)
    (relationship_types : option (list RelationshipType))
    (exclude_thought_id : option string) (t : thought) : bool :=
  if match exclude_thought_id with
     | Some e => Str.truthy e && String.eqb (id t) e
     | None => false
     end
  then false
  else if match relationship_types with
          | Some (ty :: tys) =>
              match relationship_type t with
              | Some r => negb (bool_decide (r ∈ ty :: tys))
              | None => true
              end
          | _ => false
          end
  then false
  else matches_query queryLower t.

Definition find_thought_relationships (fs : store) (sessionName query : string)
    (relationship_types : option (list RelationshipType))
    (exclude_thought_id : option string) (limit : nat) (clock : Z)
    : tool_payload :=
  match validateSessionName sessionName with
  | Throw message => ToolError "Failed to find relationships" [("message", message)]
  | Ok _ =>
      let thoughts := loadSession fs sessionName in
      if length thoughts =? 0 then
        ToolError "Session not found or empty" [("sessionName", sessionName)]
      else
        let queryLower := Str.toLowerCase query in
        let searchResults :=
          array_slice 0 limit
            (array_sort by_score_desc
               (map (result_of queryLower)
                  (List.filter
                     (relationship_candidate queryLower relationship_types
                                             exclude_thought_id)
                     thoughts))) in
        RelationshipsOk (RelationshipsResponse sessionName query searchResults
                           (length searchResults) clock)
  end.

(* ===================================================================== *)
(** * Further notions used by the statements                              *)
(* ===================================================================== *)

(** [s.split(':')]: the pieces between colons, [cur] being the piece
    read so far. *)
Fixpoint split_colons_from (s cur : string) : list string :=
  match s with
  | EmptyString => [cur]
  | String c r =>
      if Ascii.eqb c ":" then cur :: split_colons_from r EmptyString
      else split_colons_from r (cur ++ String c EmptyString)%string
  end.

Definition split_colons (s : string) : list string :=
  split_colons_from s EmptyString.

(** A segment of a session name: not empty, over [[a-zA-Z0-9_-]]. *)
Definition is_segment (seg : string) : Prop :=
  seg ≠ EmptyString ∧ string_forall is_name_char seg = true.

Definition is_digit (c : ascii) : bool := Str.in_range "0" "9" c.

(** [t'] is [t] with, at most, entries added at the end of its inbound
    relationship list. *)
Definition same_but_inbound (t t' : thought) : Prop :=
  id t' = id t ∧ content t' = content t ∧ mode t' = mode t ∧ tags t' = tags t
  ∧ timestamp t' = timestamp t ∧ relates_to t' = relates_to t
  ∧ relationship_type t' = relationship_type t
  ∧ relationships_out t' = relationships_out t
  ∧ ∃ more, relationships_in t' = relationships_in t ++ more.

(** The entry [list_sessions] builds for a file that exists. *)
Definition entry_for (fs : store) (file : string) : session_entry :=
  let thoughts := loadSession fs (desanitizeFilename file) in
  SessionEntry (desanitizeFilename file) (length thoughts)
    (timestamp <$> head thoughts) (timestamp <$> last thoughts)
    (default 0%Z (mtime <$> fs !! file)).

(** The summary [search_all_sessions] builds for a file that exists, if
    any thought loaded under its decoded name matches. *)
Definition match_for (fs : store) (queryLower file : string) : option session_match :=
  let thoughts := loadSession fs (desanitizeFilename file) in
  let matching := List.filter (matches_query queryLower) thoughts in
  if 0 <? length matching then
    Some (SessionMatch (desanitizeFilename file) (length matching) (length thoughts)
            (default 0%Z (mtime <$> fs !! file)) (length matching))
  else None.

(* ===================================================================== *)
(** * Name codec: properties                                              *)
(* ===================================================================== *)

Lemma name_char_facts c :
  is_name_char c = true →
  is_unsafe_char c = false ∧ Ascii.eqb c ":" = false ∧ Ascii.eqb c "." = false.
Proof.
  destruct c as [[] [] [] [] [] [] [] []]; vm_compute; intros H;
    (discriminate H || (repeat split; reflexivity)).
Qed.

Lemma pattern_scan_alphabet s : ∀ groups seg_open,
  pattern_scan s groups seg_open = true → string_forall name_alphabet s = true.
Proof.
  induction s as [|c r IH]; intros groups seg_open; simpl; [done|].
  unfold name_alphabet at 1.
  destruct (is_name_char c); simpl.
  - apply IH.
  - destruct (Ascii.eqb c ":"); simpl; [|done].
    intros [_ H]%andb_true_iff. by apply IH in H.
Qed.

Lemma separator_free_tail c r :
  separator_free (String c r) = true → separator_free r = true.
Proof.
  destruct r as [|c' r']; [done|].
  cbn [separator_free]. by intros [_ H]%andb_true_iff.
Qed.

Lemma collapse_separator_free s :
  separator_free s = true → collapse_underscores s = s.
Proof.
  induction s as [|c r IH]; [done|].
  intros H. pose proof (separator_free_tail _ _ H) as Hr.
  destruct r as [|c' r']; [done|].
  cbn [separator_free] in H. apply andb_true_iff in H as [H _].
  change (collapse_underscores (String c (String c' r')))
    with (if Ascii.eqb c "_" && Ascii.eqb c' "_"
          then collapse_underscores (String c' r')
          else String c (collapse_underscores (String c' r'))).
  rewrite (IH Hr).
  destruct (Ascii.eqb c "_"), (Ascii.eqb c' "_"); simpl in *; done.
Qed.

Lemma replace_unsafe_colons s :
  string_forall name_alphabet s = true →
  replace_unsafe (replace_colons s) = replace_colons s.
Proof.
  induction s as [|c r IH]; [done|].
  cbn [string_forall]. intros [Hc Hr]%andb_true_iff.
  simpl replace_colons. destruct (Ascii.eqb c ":") eqn:Hcolon.
  - cbn. by rewrite IH.
  - unfold name_alphabet in Hc. rewrite Hcolon, orb_false_r in Hc.
    destruct (name_char_facts _ Hc) as (Hsafe & _ & _).
    cbn [replace_unsafe]. by rewrite Hsafe, IH.
Qed.

(** The encoded name holds no dot, so the first [".json"] of the file
    name is the extension. *)
Lemma replace_colons_no_dot s :
  string_forall name_alphabet s = true →
  string_forall (λ c, negb (Ascii.eqb c ".")) (replace_colons s) = true.
Proof.
  induction s as [|c r IH]; [done|].
  cbn [string_forall]. intros [Hc Hr]%andb_true_iff.
  simpl replace_colons. destruct (Ascii.eqb c ":") eqn:Hcolon.
  - cbn. by apply IH.
  - unfold name_alphabet in Hc. rewrite Hcolon, orb_false_r in Hc.
    destruct (name_char_facts _ Hc) as (_ & _ & Hdot).
    cbn [string_forall]. by rewrite Hdot, IH.
Qed.

Lemma strip_extension t :
  string_forall (λ c, negb (Ascii.eqb c ".")) t = true →
  Str.replace_first ".json" EmptyString (t ++ ".json") = t.
Proof.
  induction t as [|c r IH]; [done|].
  cbn [string_forall]. intros [Hc Hr]%andb_true_iff.
  apply negb_true_iff, Ascii.eqb_neq in Hc.
  change (String c r ++ ".json")%string with (String c (r ++ ".json")).
  cbn [Str.replace_first String.prefix].
  destruct (ascii_dec "." c) as [E|_]; [by destruct Hc|].
  by rewrite IH.
Qed.

Lemma restore_colons_cons c t :
  (Ascii.eqb c "_" = false ∨
   match t with String c' _ => Ascii.eqb c' "_" = false | EmptyString => True end) →
  restore_colons (String c t) = String c (restore_colons t).
Proof.
  intros H. destruct t as [|c2 [|c3 r3]]; [done..|].
  change (restore_colons (String c (String c2 (String c3 r3))))
    with (if Ascii.eqb c "_" && Ascii.eqb c2 "_" && Ascii.eqb c3 "_"
          then String ":" (restore_colons r3)
          else String c (restore_colons (String c2 (String c3 r3)))).
  destruct H as [-> | ->]; [done|]. by rewrite andb_false_r.
Qed.

Lemma restore_replace_colons s :
  separator_free s = true → restore_colons (replace_colons s) = s.
Proof.
  induction s as [|c r IH]; [done|].
  intros H. pose proof (separator_free_tail _ _ H) as Hr.
  simpl replace_colons. destruct (Ascii.eqb c ":") eqn:Hcolon.
  - apply Ascii.eqb_eq in Hcolon as ->. cbn. by rewrite IH.
  - rewrite restore_colons_cons; [by rewrite IH|].
    destruct (Ascii.eqb c "_") eqn:Hu; [right|by left].
    destruct r as [|c' r']; [done|].
    cbn [separator_free] in H. apply andb_true_iff in H as [H _].
    rewrite Hu in H. simpl in H. apply negb_true_iff, orb_false_iff in H as [H1 H2].
    cbn [replace_colons]. by rewrite H2.
Qed.

Lemma decode_encode name :
  SESSION_NAME_PATTERN_test name = true →
  separator_free name = true →
  desanitizeFilename (session_file name) = name.
Proof.
  intros Hvalid Hfree.
  apply pattern_scan_alphabet in Hvalid.
  unfold desanitizeFilename, session_file, sanitizeSessionName.
  rewrite (collapse_separator_free _ Hfree), (replace_unsafe_colons _ Hvalid).
  rewrite strip_extension by by apply replace_colons_no_dot.
  by apply restore_replace_colons.
Qed.


(** C1, as the code has it: for every name accepted by
    [validateSessionName] under the default pattern in which no underscore
    is followed by another underscore or by a colon, decoding the file
    name of the encoded name gives the name back, and
    [sanitizeSessionName] is injective over those names. *)
Theorem C1_roundtrip_separator_free (name : string) :
  validateSessionName name = Ok name →
  separator_free name = true →
  desanitizeFilename (sanitizeSessionName name ++ ".json") = name
  ∧ ∀ other, validateSessionName other = Ok other →
             separator_free other = true →
             sanitizeSessionName other = sanitizeSessionName name →
             other = name.
Proof.
  assert (Hv : ∀ n, validateSessionName n = Ok n → SESSION_NAME_PATTERN_test n = true).
  { intros n. unfold validateSessionName.
    by destruct (SESSION_NAME_PATTERN_test n). }
  intros Hname Hfree. split.
  - apply decode_encode; auto.
  - intros other Hother Hofree Heq.
    rewrite <- (decode_encode other), <- (decode_encode name); auto.
    unfold session_file. by rewrite Heq.
Qed.

Lemma C1_roundtrip_separator_free_witness :
  desanitizeFilename (sanitizeSessionName "thesis:NVDA:ai_dominance" ++ ".json")
    = "thesis:NVDA:ai_dominance"
  ∧ ∀ other, validateSessionName other = Ok other →
             separator_free other = true →
             sanitizeSessionName other = sanitizeSessionName "thesis:NVDA:ai_dominance" →
             other = "thesis:NVDA:ai_dominance".
Proof.
  apply (C1_roundtrip_separator_free "thesis:NVDA:ai_dominance"); reflexivity.
Defined.

(** C1 as stated fails: a valid name with a doubled underscore does not
    come back from its file name, and two distinct valid names share one
    encoding. *)
Lemma C1_counterexample :
  validateSessionName "a__b:c:d" = Ok "a__b:c:d"
  ∧ desanitizeFilename (sanitizeSessionName "a__b:c:d" ++ ".json") = "a_b:c:d"
  ∧ desanitizeFilename (sanitizeSessionName "a__b:c:d" ++ ".json") ≠ "a__b:c:d"
  ∧ validateSessionName "a_b:c:d" = Ok "a_b:c:d"
  ∧ sanitizeSessionName "a__b:c:d" = sanitizeSessionName "a_b:c:d"
  ∧ "a__b:c:d" ≠ "a_b:c:d".
Proof. repeat split; try reflexivity; discriminate. Qed.

(** An underscore right before a colon merges with the separator as well:
    two valid names share one file, and decoding favours the other one. *)
Example underscore_before_colon :
  validateSessionName "a_:b:c" = Ok "a_:b:c"
  ∧ validateSessionName "a:_b:c" = Ok "a:_b:c"
  ∧ sanitizeSessionName "a_:b:c" = sanitizeSessionName "a:_b:c"
  ∧ desanitizeFilename (sanitizeSessionName "a_:b:c" ++ ".json") = "a:_b:c".
Proof. repeat split; reflexivity. Qed.

(* ===================================================================== *)
(** * Search: properties                                                  *)
(* ===================================================================== *)

Lemma sort_insert_length {A} (cmp : A → A → Z) x l :
  length (sort_insert cmp x l) = S (length l).
Proof.
  induction l as [|y r IH]; simpl; [done|].
  destruct (cmp x y <=? 0)%Z; simpl; [done|by rewrite IH].
Qed.

Lemma array_sort_length {A} (cmp : A → A → Z) l :
  length (array_sort cmp l) = length l.
Proof.
  induction l as [|x r IH]; simpl; [done|].
  by rewrite sort_insert_length, IH.
Qed.

Lemma array_slice_length {A} (from n : nat) (l : list A) :
  length (array_slice from (from + n) l) = min n (length l - from).
Proof.
  unfold array_slice. rewrite length_take, length_drop.
  replace (from + n - from) with n by lia. done.
Qed.

Lemma sort_insert_Forall {A} (P : A → Prop) (cmp : A → A → Z) x l :
  P x → Forall P l → Forall P (sort_insert cmp x l).
Proof.
  intros Hx. induction 1 as [|y r Hy Hr IH]; simpl.
  - by constructor.
  - destruct (cmp x y <=? 0)%Z; repeat constructor; auto.
Qed.

Lemma array_sort_Forall {A} (P : A → Prop) (cmp : A → A → Z) l :
  Forall P l → Forall P (array_sort cmp l).
Proof.
  induction 1; simpl; [constructor|]. by apply sort_insert_Forall.
Qed.

(** Sorting commutes with a map that the comparator factors through. *)
Lemma sort_insert_map {A B} (f : A → B) (cmp : B → B → Z) x l :
  map f (sort_insert (λ a b, cmp (f a) (f b)) x l) = sort_insert cmp (f x) (map f l).
Proof.
  induction l as [|y r IH]; simpl; [done|].
  destruct (cmp (f x) (f y) <=? 0)%Z; simpl; [done|by rewrite IH].
Qed.

Lemma array_sort_map {A B} (f : A → B) (cmp : B → B → Z) l :
  map f (array_sort (λ a b, cmp (f a) (f b)) l) = array_sort cmp (map f l).
Proof.
  induction l as [|x r IH]; simpl; [done|].
  by rewrite sort_insert_map, IH.
Qed.

Lemma filter_map_comm {A B} (f : A → B) (p : B → bool) l :
  map f (List.filter (λ a, p (f a)) l) = List.filter p (map f l).
Proof.
  induction l as [|x r IH]; simpl; [done|].
  destruct (p (f x)); simpl; by rewrite IH.
Qed.

Lemma array_slice_map {A B} (f : A → B) from to (l : list A) :
  map f (array_slice from to l) = array_slice from to (map f l).
Proof. unfold array_slice. by rewrite skipn_map, firstn_map. Qed.

Lemma indexed_from_snd k thoughts : map snd (indexed_from k thoughts) = thoughts.
Proof.
  revert k. induction thoughts as [|t r IH]; intros k; simpl; [done|].
  by rewrite IH.
Qed.

Lemma indexed_from_bounds k thoughts :
  Forall (λ it, k ≤ it.1) (indexed_from k thoughts).
Proof.
  revert k. induction thoughts as [|t r IH]; intros k; simpl; constructor.
  - simpl. lia.
  - eapply Forall_impl; [apply (IH (S k))|]. simpl. lia.
Qed.

Lemma indexed_from_lookup k thoughts :
  Forall (λ it, thoughts !! (it.1 - k) = Some it.2) (indexed_from k thoughts).
Proof.
  revert k. induction thoughts as [|t r IH]; intros k; simpl; constructor.
  - simpl. by rewrite Nat.sub_diag.
  - pose proof (indexed_from_bounds (S k) r) as Hb.
    specialize (IH (S k)). rewrite Forall_forall in *.
    intros it Hit. specialize (IH it Hit). specialize (Hb it Hit). simpl in *.
    replace (it.1 - k) with (S (it.1 - S k)) by lia. done.
Qed.

Lemma indexed_from_increasing k thoughts :
  StronglySorted (λ a b : nat * thought, a.1 < b.1) (indexed_from k thoughts).
Proof.
  revert k. induction thoughts as [|t r IH]; intros k; simpl; constructor.
  - apply IH.
  - eapply Forall_impl; [apply (indexed_from_bounds (S k))|]. simpl. lia.
Qed.

Lemma filter_StronglySorted {A} (R : A → A → Prop) (p : A → bool) l :
  StronglySorted R l → StronglySorted R (List.filter p l).
Proof.
  induction 1 as [|x r Hr IH Hx]; simpl; [constructor|].
  destruct (p x); [|done]. constructor; [done|].
  rewrite Forall_forall in *. intros y Hy.
  apply list_elem_of_In, filter_In in Hy as [Hy _]. by apply Hx, list_elem_of_In.
Qed.

Section Ranking.

Variable queryLower : string.

Let score (it : nat * thought) : Z := calculateRelevanceScore it.2 queryLower.
Let cmp (a b : nat * thought) : Z := (score b - score a)%Z.

Lemma sort_insert_ranked x l :
  Forall (λ y, x.1 < y.1) l →
  StronglySorted (ranked_before queryLower) l →
  StronglySorted (ranked_before queryLower) (sort_insert cmp x l).
Proof.
  intros Hidx Hsorted. induction Hsorted as [|y r Hr IH Hy]; simpl.
  - repeat constructor.
  - apply Forall_cons in Hidx as [Hxy Hxr].
    destruct (cmp x y <=? 0)%Z eqn:Hcmp.
    + apply Z.leb_le in Hcmp. unfold cmp in Hcmp.
      constructor; [by constructor|]. constructor.
      * split; [fold (score x) (score y); lia|done].
      * rewrite Forall_forall in *. intros z Hz.
        destruct (Hy z Hz) as [Hle _]. specialize (Hxr z Hz).
        split; [fold (score x) (score z) (score y) in *; lia|done].
    + apply Z.leb_gt in Hcmp. unfold cmp in Hcmp.
      constructor; [by apply IH|].
      apply sort_insert_Forall; [|done].
      split; fold (score x) (score y); lia.
Qed.

Lemma array_sort_ranked l :
  StronglySorted (λ a b : nat * thought, a.1 < b.1) l →
  StronglySorted (ranked_before queryLower) (array_sort cmp l).
Proof.
  induction 1 as [|x r Hr IH Hx]; simpl; [constructor|].
  apply sort_insert_ranked; [|done]. by apply array_sort_Forall.
Qed.

End Ranking.

Lemma StronglySorted_take {A} (R : A → A → Prop) n l :
  StronglySorted R l → StronglySorted R (take n l).
Proof.
  intros H. revert n. induction H as [|x r Hr IH Hx]; intros [|n]; simpl;
    try constructor; [apply IH|].
  rewrite Forall_forall in *. intros y Hy. apply Hx.
  eapply subseteq_take, Hy.
Qed.

Lemma StronglySorted_drop {A} (R : A → A → Prop) n l :
  StronglySorted R l → StronglySorted R (drop n l).
Proof.
  intros H. revert n. induction H as [|x r Hr IH Hx]; intros [|n]; simpl;
    [constructor..| |apply IH]. by constructor.
Qed.

(** The ranking pipeline, carried out on positions: the page of results
    is the image of a list of stored positions that is sorted by
    [ranked_before]. *)
Lemma searchResults_ranked thoughts query limit offset :
  ∃ page : list (nat * thought),
    searchResults thoughts query limit offset
      = map (λ it, result_of (Str.toLowerCase query) it.2) page
    ∧ Forall (λ it, thoughts !! it.1 = Some it.2) page
    ∧ StronglySorted (ranked_before (Str.toLowerCase query)) page.
Proof.
  set (q := Str.toLowerCase query).
  set (cmp := λ a b : nat * thought,
         (calculateRelevanceScore b.2 q - calculateRelevanceScore a.2 q)%Z).
  set (hits := List.filter (λ it : nat * thought, matches_query q it.2)
                           (indexed_from 0 thoughts)).
  exists (array_slice offset (offset + limit) (array_sort cmp hits)).
  split; [|split].
  - unfold searchResults, ranked_matches. fold q.
    rewrite array_slice_map. f_equal.
    change cmp with (λ a b : nat * thought,
                       by_score_desc (result_of q a.2) (result_of q b.2)).
    rewrite (array_sort_map (λ it : nat * thought, result_of q it.2) by_score_desc).
    f_equal. unfold hits.
    rewrite <- (map_map snd (result_of q)).
    rewrite (filter_map_comm snd (matches_query q)).
    by rewrite indexed_from_snd.
  - unfold array_slice. apply Forall_take, Forall_drop, array_sort_Forall.
    unfold hits. pose proof (indexed_from_lookup 0 thoughts) as H.
    rewrite Forall_forall in *. intros it Hit.
    apply list_elem_of_In, filter_In in Hit as [Hit _].
    apply list_elem_of_In in Hit.
    specialize (H it Hit). by rewrite Nat.sub_0_r in H.
  - unfold array_slice. apply StronglySorted_take, StronglySorted_drop.
    apply array_sort_ranked. unfold hits.
    apply filter_StronglySorted, indexed_from_increasing.
Qed.

Lemma search_in_session_ok fs name query limit offset clock :
  validateSessionName name = Ok name →
  loadSession fs name ≠ [] →
  search_in_session fs name query limit offset clock
  = SearchOk (SearchResponse name query
                (searchResults (loadSession fs name) query limit offset)
                (length (searchResults (loadSession fs name) query limit offset))
                offset limit clock).
Proof.
  intros Hv Hne. unfold search_in_session. rewrite Hv.
  destruct (loadSession fs name); [done|]. done.
Qed.

Lemma search_in_session_inv fs name query limit offset clock r :
  search_in_session fs name query limit offset clock = SearchOk r →
  results r = searchResults (loadSession fs name) query limit offset
  ∧ count r = length (results r)
  ∧ loadSession fs name ≠ [].
Proof.
  unfold search_in_session.
  destruct (validateSessionName name); [|done].
  destruct (loadSession fs name) eqn:E; [done|].
  simpl. intros [= <-]. by simpl.
Qed.

Lemma StronglySorted_map {A B} (f : A → B) (R : A → A → Prop) (S : B → B → Prop) l :
  (∀ a b, R a b → S (f a) (f b)) →
  StronglySorted R l → StronglySorted S (map f l).
Proof.
  intros HRS. induction 1 as [|x r Hr IH Hx]; simpl; constructor; [done|].
  apply Forall_map. eapply Forall_impl; [exact Hx|]. simpl. auto.
Qed.

(** C2, as the code has it: [count] is the length of the returned page,
    that is [min limit (M - offset)] for [M] the number of thoughts passing
    the filter; [M] itself is not part of the response. *)
Theorem C2_count_is_page_length fs name query limit offset clock r :
  search_in_session fs name query limit offset clock = SearchOk r →
  count r = length (results r)
  ∧ count r
    = min limit
          (length (List.filter (matches_query (Str.toLowerCase query))
                               (loadSession fs name)) - offset).
Proof.
  intros (Hres & Hcount & _)%search_in_session_inv.
  split; [done|]. rewrite Hcount, Hres.
  unfold searchResults, ranked_matches.
  by rewrite array_slice_length, array_sort_length, length_map.
Qed.

Lemma C2_count_is_page_length_witness :
  2 = length (searchResults sample_session "amd" 2 1)
  ∧ 2 = min 2 (length (List.filter (matches_query (Str.toLowerCase "amd"))
                                   (loadSession sample_store sample_name)) - 1).
Proof.
  apply (C2_count_is_page_length sample_store sample_name "amd" 2 1 9
           (SearchResponse sample_name "amd"
              (searchResults sample_session "amd" 2 1) 2 1 2 9)).
  vm_compute. reflexivity.
Defined.

(** C2 as stated fails: three thoughts of the sample session pass the
    filter, and with [limit = 1] the response reports [count = 1]. *)
Lemma C2_counterexample :
  ∃ r, search_in_session sample_store sample_name "AMD" 1 0 9 = SearchOk r
       ∧ length (List.filter (matches_query (Str.toLowerCase "AMD"))
                             (loadSession sample_store sample_name)) = 3
       ∧ count r = 1
       ∧ count r ≠ 3.
Proof.
  eexists. split; [vm_compute; reflexivity|].
  repeat split; vm_compute; congruence.
Qed.

(** C6: the results of [search_in_session] are in non-increasing order of
    [relevance_score], and they are the images of stored positions among
    which equal scores stand in stored order. *)
Theorem C6_results_sorted_stable fs name query limit offset clock r :
  search_in_session fs name query limit offset clock = SearchOk r →
  StronglySorted (λ a b, (relevance_score b ≤ relevance_score a)%Z) (results r)
  ∧ ∃ page : list (nat * thought),
      results r = map (λ it, result_of (Str.toLowerCase query) it.2) page
      ∧ Forall (λ it, loadSession fs name !! it.1 = Some it.2) page
      ∧ StronglySorted (ranked_before (Str.toLowerCase query)) page.
Proof.
  intros (Hres & _ & _)%search_in_session_inv.
  destruct (searchResults_ranked (loadSession fs name) query limit offset)
    as (page & Hpage & Hpos & Hsorted).
  rewrite Hres. split; [|by exists page].
  rewrite Hpage.
  eapply StronglySorted_map; [|exact Hsorted].
  intros a b [Hle _]. exact Hle.
Qed.

Lemma C6_results_sorted_stable_witness :
  StronglySorted (λ a b, (relevance_score b ≤ relevance_score a)%Z)
                 (searchResults sample_session "amd" 10 0)
  ∧ ∃ page : list (nat * thought),
      searchResults sample_session "amd" 10 0
        = map (λ it, result_of (Str.toLowerCase "amd") it.2) page
      ∧ Forall (λ it, loadSession sample_store sample_name !! it.1 = Some it.2) page
      ∧ StronglySorted (ranked_before (Str.toLowerCase "amd")) page.
Proof.
  apply (C6_results_sorted_stable sample_store sample_name "amd" 10 0 9
           (SearchResponse sample_name "amd"
              (searchResults sample_session "amd" 10 0) 3 0 10 9)).
  vm_compute. reflexivity.
Defined.

(** On the sample session the two thoughts with score 12 keep their stored
    order, and the earlier thought with score 5 comes last. *)
Example search_sample_order :
  map (λ r, (sr_id r, relevance_score r)) (searchResults sample_session "amd" 10 0)
  = [("thought_2_bbbbb", 12%Z); ("thought_4_ddddd", 12%Z); ("thought_1_aaaaa", 5%Z)].
Proof. vm_compute. reflexivity. Qed.

(* ===================================================================== *)
(** * Reasoning chain: properties                                         *)
(* ===================================================================== *)

Lemma ancestry_walk_length fuel thoughts visited currentId :
  length (ancestry_walk fuel thoughts visited currentId) ≤ fuel.
Proof.
  revert visited currentId. induction fuel as [|f IH]; intros v c; simpl; [done|].
  destruct (_ && _); simpl; [|lia].
  destruct (find_thought c thoughts) as [t|]; simpl; [|lia].
  destruct (builds_on_target t); simpl; [|lia].
  specialize (IH ({[c]} ∪ v) s). lia.
Qed.

(** A shorter walk is a prefix of a longer one. *)
Lemma ancestry_walk_take n : ∀ m thoughts visited currentId,
  n ≤ m →
  ancestry_walk n thoughts visited currentId
  = take n (ancestry_walk m thoughts visited currentId).
Proof.
  induction n as [|n IH]; intros m ts v c Hle; [done|].
  destruct m as [|m]; [lia|]. simpl.
  destruct (_ && _); [|done].
  destruct (find_thought c ts) as [t|]; [|done]. simpl.
  destruct (builds_on_target t); [|by rewrite take_nil].
  f_equal. apply IH. lia.
Qed.

Lemma find_thought_Some i thoughts t :
  find_thought i thoughts = Some t → id t = i ∧ t ∈ thoughts.
Proof.
  unfold find_thought. intros H. apply find_some in H as [Hin Heq].
  apply String.eqb_eq in Heq. split; [done|]. by apply list_elem_of_In.
Qed.

(** The ids met by a walk are pairwise distinct, outside [visited], and
    ids of stored thoughts. *)
Lemma ancestry_walk_ids fuel thoughts : ∀ visited currentId,
  let ids := map id (ancestry_walk fuel thoughts visited currentId) in
  NoDup ids ∧ (∀ i, i ∈ ids → (i ∉ visited) ∧ (i ∈ map id thoughts)).
Proof.
  induction fuel as [|f IH]; intros v c; simpl.
  { split; [constructor|]. intros i Hi. by apply elem_of_nil in Hi. }
  destruct (Str.truthy c && bool_decide (c ∉ v)) eqn:Hguard; simpl;
    [|split; [constructor|intros i Hi; by apply elem_of_nil in Hi]].
  apply andb_true_iff in Hguard as [_ Hv]. apply bool_decide_eq_true in Hv.
  destruct (find_thought c thoughts) as [t|] eqn:Hfind; simpl;
    [|split; [constructor|intros i Hi; by apply elem_of_nil in Hi]].
  apply find_thought_Some in Hfind as [Hid Hin].
  assert (Hc : c ∈ map id thoughts).
  { rewrite <- Hid. apply list_elem_of_In, in_map. by apply list_elem_of_In. }
  destruct (builds_on_target t) as [r|]; simpl.
  - destruct (IH ({[c]} ∪ v) r) as [Hnd Hall]. rewrite Hid. split.
    + constructor; [|done]. intros Hc'. apply Hall in Hc' as [Hc' _].
      apply Hc', elem_of_union_l. by apply elem_of_singleton.
    + intros i [->|Hi]%elem_of_cons; [done|].
      apply Hall in Hi as [Hi1 Hi2]. split; [|done].
      intros Hi. by apply Hi1, elem_of_union_r.
  - rewrite Hid. split.
    + apply NoDup_singleton.
    + intros i Hi. apply list_elem_of_singleton in Hi as ->. done.
Qed.

Lemma ancestry_walk_bounded fuel thoughts visited currentId :
  length (ancestry_walk fuel thoughts visited currentId) ≤ length thoughts.
Proof.
  destruct (ancestry_walk_ids fuel thoughts visited currentId) as [Hnd Hall].
  rewrite <- (length_map id (ancestry_walk _ _ _ _)), <- (length_map id thoughts).
  apply submseteq_length, NoDup_submseteq; [done|].
  intros i Hi. by apply Hall in Hi as [_ Hi].
Qed.

(** [length thoughts] steps exhaust the walk: more fuel changes nothing. *)
Lemma ancestry_walk_enough fuel thoughts visited currentId :
  length thoughts ≤ fuel →
  ancestry_walk fuel thoughts visited currentId
  = ancestry_walk (length thoughts) thoughts visited currentId.
Proof.
  intros Hle.
  rewrite (ancestry_walk_take (length thoughts) fuel) by done.
  rewrite take_ge; [done|]. apply ancestry_walk_bounded.
Qed.

(** The loop of [buildReasoningChain] prepends the walk of the remaining
    depth, whatever fuel beyond that depth it is given. *)
Lemma chain_loop_walk fuel : ∀ thoughts visited currentId chain,
  20 - length chain ≤ fuel →
  chain_loop fuel thoughts visited currentId chain
  = rev (map entry_of (ancestry_walk (20 - length chain) thoughts visited currentId))
    ++ chain.
Proof.
  induction fuel as [|f IH]; intros ts v c chain Hfuel.
  { replace (20 - length chain) with 0 by lia. done. }
  cbn [chain_loop].
  destruct (Nat.ltb_spec (length chain) 20) as [Hlt|Hge].
  - destruct (20 - length chain) as [|k] eqn:Hk; [lia|].
    cbn [ancestry_walk]. rewrite andb_true_r.
    destruct (_ && _); [|done].
    destruct (find_thought c ts) as [t|]; [|done].
    destruct (builds_on_target t) as [r|]; [|done].
    rewrite IH by (simpl; lia).
    replace (20 - length (entry_of t :: chain)) with k by (simpl; lia).
    simpl. by rewrite <- app_assoc.
  - rewrite andb_false_r.
    replace (20 - length chain) with 0 by lia. done.
Qed.

Lemma chain_loop_fuel fuel thoughts currentId :
  20 ≤ fuel →
  chain_loop fuel thoughts ∅ currentId [] = chain_loop 20 thoughts ∅ currentId [].
Proof.
  intros H. rewrite !chain_loop_walk by (simpl; lia). done.
Qed.

Lemma rev_take_drop {A} n (l : list A) :
  rev (take n l) = drop (length l - n) (rev l).
Proof.
  destruct (Nat.le_gt_cases n (length l)) as [Hle|Hgt].
  - rewrite skipn_rev. f_equal. f_equal. lia.
  - rewrite take_ge by lia. by replace (length l - n) with 0 by lia.
Qed.

Lemma slice_last_length {A} n (l : list A) :
  length (slice_last n l) = min (length l) n.
Proof. unfold slice_last. rewrite length_drop. lia. Qed.

Lemma slice_last_all {A} n (l : list A) : length l ≤ n → slice_last n l = l.
Proof. intros H. unfold slice_last. by replace (length l - n) with 0 by lia. Qed.

Lemma slice_last_twice {A} n m (l : list A) :
  n ≤ m → slice_last n (slice_last m l) = slice_last n l.
Proof.
  intros H. unfold slice_last. rewrite drop_drop, length_drop. f_equal. lia.
Qed.

(** The chain the loop builds is the most recent 20 entries of the
    ancestry. *)
Lemma chain_loop_ancestry startId thoughts :
  chain_loop 20 thoughts ∅ startId [] = slice_last 20 (ancestry startId thoughts).
Proof.
  rewrite chain_loop_walk by (simpl; lia). rewrite app_nil_r.
  change (20 - length (@nil chain_entry)) with 20.
  set (L := length thoughts).
  rewrite (ancestry_walk_take 20 (max 20 L)) by lia.
  rewrite (ancestry_walk_enough (max 20 L)) by lia.
  unfold ancestry. fold L.
  set (W := ancestry_walk L thoughts ∅ startId).
  unfold slice_last.
  rewrite <- map_rev, rev_take_drop, !length_map, length_rev.
  by rewrite skipn_map.
Qed.

Lemma mark_oldest_length omitted l : length (mark_oldest omitted l) = length l.
Proof. by destruct l. Qed.

(** C3, as the code has it: the walk stops at depth 20, so
    [total_length] is the length of the ancestry chain capped at 20; a
    chain longer than 7 is cut to its most recent 7 entries, the oldest of
    which is flagged and annotated with [total_length - 7]; a session of
    nine thoughts each building on the previous one yields 7 entries
    with [total_length = 9]. *)
Theorem C3_chain_display startId thoughts :
  let r := buildReasoningChain startId thoughts in
  let full := ancestry startId thoughts in
  total_length r = min (length full) 20
  ∧ truncated r = bool_decide (7 < length full)
  ∧ chain r = (if bool_decide (7 < length full)
               then mark_oldest (total_length r - 7) (slice_last 7 full)
               else full)
  ∧ length (chain r) = min (length full) 7
  ∧ (let r9 := buildReasoningChain (step_id 9) (grown_session 9) in
     length (grown_session 9) = 9
     ∧ length (chain r9) = 7
     ∧ total_length r9 = 9
     ∧ map ce_id (chain r9) = map step_id [3; 4; 5; 6; 7; 8; 9]
     ∧ map ce_truncated (chain r9) = [true; false; false; false; false; false; false]
     ∧ (ce_note <$> head (chain r9)) = Some (Some (truncation_note 2))).
Proof.
  intros r full.
  assert (Hgen :
    total_length r = min (length full) 20
    ∧ truncated r = bool_decide (7 < length full)
    ∧ chain r = (if bool_decide (7 < length full)
                 then mark_oldest (total_length r - 7) (slice_last 7 full)
                 else full)).
  { subst r. unfold buildReasoningChain, maxChainLength.
    rewrite chain_loop_ancestry. fold full.
    pose proof (slice_last_length 20 full) as Hlen. rewrite Hlen.
    destruct (Nat.ltb_spec 7 (min (length full) 20)) as [Hlt|Hge]; simpl.
    - rewrite bool_decide_eq_true_2 by lia.
      rewrite slice_last_twice by lia. done.
    - rewrite bool_decide_eq_false_2 by lia.
      rewrite slice_last_all by lia. done. }
  destruct Hgen as (Htotal & Htrunc & Hchain).
  do 3 (split; [done|]). split.
  - rewrite Hchain. case_bool_decide.
    + rewrite mark_oldest_length, slice_last_length. lia.
    + lia.
  - vm_compute. repeat split; reflexivity.
Qed.

(** C3 as stated fails beyond depth 20: in a session of 21 thoughts, each
    building on the previous one, the ancestry of the last thought has 21
    entries and [total_length] is 20. *)
Lemma C3_counterexample :
  length (grown_session 21) = 21
  ∧ length (ancestry (step_id 21) (grown_session 21)) = 21
  ∧ total_length (buildReasoningChain (step_id 21) (grown_session 21)) = 20
  ∧ total_length (buildReasoningChain (step_id 21) (grown_session 21))
    ≠ length (ancestry (step_id 21) (grown_session 21)).
Proof. vm_compute. repeat split; congruence. Qed.

(* ===================================================================== *)
(** * Session store and think: properties                                 *)
(* ===================================================================== *)

Lemma loadSession_lookup fs name :
  loadSession fs name
  = match fs !! session_file name with
    | Some (File (JsonThoughts thoughts) _ _ _) => thoughts
    | _ => []
    end.
Proof.
  unfold loadSession, Fs.readFile, session_file.
  destruct (fs !! _) as [[[] ? ? ?]|]; reflexivity.
Qed.

Lemma loadSession_absent fs name :
  fs !! session_file name = None → loadSession fs name = [].
Proof. intros H. by rewrite loadSession_lookup, H. Qed.

Lemma saveSession_insert fs name thoughts clock fs' :
  saveSession fs name thoughts clock = Ok fs' →
  can_write fs (session_file name) = true
  ∧ ∃ born,
      fs' = <[session_file name :=
                File (if can_read fs (session_file name)
                      then JsonThoughts thoughts else Unreadable)
                     true born clock]> fs.
Proof.
  unfold saveSession, Fs.writeFile, can_write, can_read. fold (session_file name).
  destruct (fs !! session_file name) as [[d w born modified]|]; simpl.
  - destruct w; [|done]. intros [= <-]. split; [done|]. exists born. by destruct d.
  - intros [= <-]. eauto.
Qed.

Lemma saveSession_can_write fs name thoughts clock :
  can_write fs (session_file name) = true →
  ∃ fs', saveSession fs name thoughts clock = Ok fs'.
Proof.
  unfold saveSession, Fs.writeFile, can_write. fold (session_file name).
  destruct (fs !! session_file name) as [f|]; [|eauto].
  intros ->. eauto.
Qed.

Lemma saveSession_Throw fs name thoughts clock message :
  saveSession fs name thoughts clock = Throw message →
  can_write fs (session_file name) = false
  ∧ ∃ rest, message = String "E" rest.
Proof.
  unfold saveSession, Fs.writeFile, can_write. fold (session_file name).
  destruct (fs !! session_file name) as [f|]; [|done].
  destruct (writable f); [done|]. intros [= <-]. split; [done|]. by eexists.
Qed.

Lemma saveSession_refused fs name thoughts clock :
  can_write fs (session_file name) = false →
  ∃ message, saveSession fs name thoughts clock = Throw message.
Proof.
  unfold saveSession, Fs.writeFile, can_write. fold (session_file name).
  destruct (fs !! session_file name) as [f|]; [|done].
  intros ->. eauto.
Qed.

Lemma load_save fs name thoughts clock fs' :
  saveSession fs name thoughts clock = Ok fs' →
  can_read fs (session_file name) = true →
  loadSession fs' name = thoughts.
Proof.
  intros (_ & born & ->)%saveSession_insert Hr.
  by rewrite loadSession_lookup, lookup_insert_eq, Hr.
Qed.

Lemma load_save_blind fs name thoughts clock fs' :
  saveSession fs name thoughts clock = Ok fs' →
  can_read fs (session_file name) = false →
  loadSession fs' name = [].
Proof.
  intros (_ & born & ->)%saveSession_insert Hr.
  by rewrite loadSession_lookup, lookup_insert_eq, Hr.
Qed.

Lemma loadSession_can_read fs name :
  loadSession fs name ≠ [] → can_read fs (session_file name) = true.
Proof.
  rewrite loadSession_lookup. unfold can_read.
  destruct (fs !! session_file name) as [[[] ? ? ?]|]; done.
Qed.

(** The outcomes of [think] in a settled session. *)
Lemma think_in_session_unlinked fs args env session isNew :
  link_requested args = None →
  think_in_session fs args env session isNew
  = saved_or_error fs
      (saveSession fs session (appended (loadSession fs session) args env)
                   (save_clock env))
      (ThinkOk (ThinkResponse (reasoning args) (new_thought_id env) session
                  (default linear (mode_arg args)) (default [] (tags_arg args))
                  (response_clock env)
                  (length (appended (loadSession fs session) args env))
                  true None None isNew)).
Proof.
  intros Hlink. unfold think_in_session, appended, new_thought, saved_or_error.
  rewrite Hlink. reflexivity.
Qed.

Lemma think_in_session_linked fs args env session isNew target ty :
  link_requested args = Some (target, ty) →
  think_in_session fs args env session isNew
  = if String.eqb target (new_thought_id env) then
      (fs, ErrorPayload "Cannot reference self" [])
    else
      match find_thought target (loadSession fs session) with
      | None =>
          (fs, ErrorPayload "Referenced thought not found" [("thought_id", target)])
      | Some referencedThought =>
          if (timestamp referencedThought >? thought_clock env)%Z then
            (fs, ErrorPayload "Cannot reference future thoughts" [])
          else
            let thoughts := appended (loadSession fs session) args env in
            saved_or_error fs
              (saveSession fs session thoughts (save_clock env))
              (ThinkOk (ThinkResponse (reasoning args) (new_thought_id env) session
                          (default linear (mode_arg args))
                          (default [] (tags_arg args)) (response_clock env)
                          (length thoughts) true
                          (related_context_of thoughts target ty).1
                          (related_context_of thoughts target ty).2 isNew))
      end.
Proof.
  intros Hlink. unfold think_in_session, appended, new_thought, saved_or_error.
  rewrite Hlink. simpl.
  destruct (String.eqb target (new_thought_id env)); [done|].
  destruct (find_thought target (loadSession fs session)) as [t|]; [|done].
  destruct (timestamp t >? thought_clock env)%Z; [done|].
  destruct (saveSession _ _ _ _); [|done].
  by destruct (related_context_of _ target ty).
Qed.

Lemma think_session fs args env :
  think fs args env
  = match session_of args env with
    | Throw message => (fs, ErrorPayload message [])
    | Ok session =>
        think_in_session fs args env session
          (match sessionName args with
           | Some s => if Str.truthy s then length (loadSession fs s) =? 0 else true
           | None => true
           end)
    end.
Proof.
  unfold think, session_of.
  destruct (sessionName args) as [s|]; [|done].
  destruct (Str.truthy s); [|done].
  unfold validateSessionName. by destruct (SESSION_NAME_PATTERN_test s).
Qed.

(** C4, as the code has it: when both [relates_to] (non-empty) and
    [relationship_type] are supplied, the session name is valid or
    omitted, and [relates_to] is neither the id generated for the new
    thought nor the id of a stored thought, [think] returns the
    "Referenced thought not found" payload and leaves the store as it is. *)
Theorem C4_target_not_found fs args env session target ty :
  link_requested args = Some (target, ty) →
  session_of args env = Ok session →
  target ≠ new_thought_id env →
  find_thought target (loadSession fs session) = None →
  think fs args env
  = (fs, ErrorPayload "Referenced thought not found" [("thought_id", target)]).
Proof.
  intros Hlink Hsession Hself Hfind.
  rewrite think_session, Hsession.
  rewrite (think_in_session_linked _ _ _ _ _ target ty Hlink).
  apply String.eqb_neq in Hself. by rewrite Hself, Hfind.
Qed.

Lemma C4_target_not_found_witness :
  think sample_store
    (ThinkArgs "more" (Some sample_name) None None (Some "ghost") (Some supports))
    (step_env 5)
  = (sample_store,
     ErrorPayload "Referenced thought not found" [("thought_id", "ghost")]).
Proof.
  apply (C4_target_not_found sample_store _ (step_env 5) sample_name "ghost" supports);
    vm_compute; congruence.
Defined.

(** C4 as stated fails: with [relates_to] naming no stored thought and
    [relationship_type] omitted, [think] succeeds and the session grows. *)
Lemma C4_counterexample :
  let args := ThinkArgs "more" (Some sample_name) None None (Some "ghost") None in
  find_thought "ghost" (loadSession sample_store sample_name) = None
  ∧ (∃ r, snd (think sample_store args (step_env 5)) = ThinkOk r)
  ∧ length (loadSession sample_store sample_name) = 4
  ∧ length (loadSession (fst (think sample_store args (step_env 5))) sample_name) = 5.
Proof.
  split; [reflexivity|]. split; [eexists; vm_compute; reflexivity|].
  split; vm_compute; reflexivity.
Qed.

(** C8, as the code has it: when [relates_to] or [relationship_type] is
    missing, [think] never returns a link-validation failure; when
    moreover the session name is valid or omitted and the session's file
    is absent or open to writing, the thought is saved at the end of the
    session with [relates_to] and [relationship_type] null and both
    relationship lists empty - a later read returning it unless the file
    is closed to reading - and the response carries no related
    context. *)
Theorem C8_partial_link_dropped fs args env :
  relates_to_arg args = None ∨ relationship_type_arg args = None →
  ¬ is_link_error (snd (think fs args env))
  ∧ (∀ session, session_of args env = Ok session →
       can_write fs (session_file session) = true →
       let saved :=
         loadSession fs session
         ++ [Thought (new_thought_id env) (reasoning args)
                     (default linear (mode_arg args)) (default [] (tags_arg args))
                     (thought_clock env) None None [] []] in
       saveSession fs session saved (save_clock env) = Ok (fst (think fs args env))
       ∧ (can_read fs (session_file session) = true →
            loadSession (fst (think fs args env)) session = saved)
       ∧ ∃ r, snd (think fs args env) = ThinkOk r
              ∧ thoughtCount r = length saved
              ∧ tr_related_context r = None ∧ reasoning_chain r = None).
Proof.
  intros Hpartial.
  assert (Hlink : link_requested args = None).
  { unfold link_requested. destruct Hpartial as [-> | ->]; [done|].
    by destruct (relates_to_arg args). }
  rewrite think_session. split.
  - destruct (session_of args env) as [session|message] eqn:Hs.
    + rewrite think_in_session_unlinked by done. unfold saved_or_error.
      destruct (saveSession _ _ _ _) as [fs'|message] eqn:Hsave; simpl.
      * intros (fields & [H|[H|H]]); discriminate H.
      * apply saveSession_Throw in Hsave as (_ & rest & ->).
        intros (fields & [H|[H|H]]); discriminate H.
    + simpl. intros (fields & H).
      assert (message = invalid_name_message) as ->.
      { unfold session_of, validateSessionName in Hs.
        destruct (sessionName args) as [s|]; [|done].
        destruct (Str.truthy s); [|done].
        destruct (SESSION_NAME_PATTERN_test s); congruence. }
      destruct H as [H|[H|H]]; discriminate H.
  - intros session -> Hw. rewrite think_in_session_unlinked by done.
    unfold appended, new_thought. rewrite Hlink. simpl.
    destruct (saveSession_can_write fs session
                (loadSession fs session
                 ++ [Thought (new_thought_id env) (reasoning args)
                       (default linear (mode_arg args)) (default [] (tags_arg args))
                       (thought_clock env) None None [] []])
                (save_clock env) Hw) as [fs' Hsave].
    rewrite Hsave. simpl. split; [done|]. split; [by eapply load_save|].
    eexists. split; [reflexivity|]. done.
Qed.

Lemma C8_partial_link_dropped_witness :
  let args := ThinkArgs "more" (Some sample_name) None None (Some "ghost") None in
  ¬ is_link_error (snd (think sample_store args (step_env 5)))
  ∧ (∀ session, session_of args (step_env 5) = Ok session →
       can_write sample_store (session_file session) = true →
       let saved :=
         loadSession sample_store session
         ++ [Thought (new_thought_id (step_env 5)) "more" linear []
                     (thought_clock (step_env 5)) None None [] []] in
       saveSession sample_store session saved (save_clock (step_env 5))
       = Ok (fst (think sample_store args (step_env 5)))
       ∧ (can_read sample_store (session_file session) = true →
            loadSession (fst (think sample_store args (step_env 5))) session = saved)
       ∧ ∃ r, snd (think sample_store args (step_env 5)) = ThinkOk r
              ∧ thoughtCount r = length saved
              ∧ tr_related_context r = None ∧ reasoning_chain r = None).
Proof.
  apply (C8_partial_link_dropped sample_store
           (ThinkArgs "more" (Some sample_name) None None (Some "ghost") None)
           (step_env 5)).
  right. reflexivity.
Defined.

(** C8 as stated fails: with [relates_to] given and [relationship_type]
    omitted, a session name of two segments is answered with the format
    error and a session file closed to writing with the error of the
    failed save, nothing being stored in either case; and on a file open
    to writing only the call succeeds, yet the session reads as empty
    afterwards. *)
Lemma C8_counterexample :
  let partial name := ThinkArgs "more" (Some name) None None (Some "ghost") None in
  think ∅ (partial "only:two") (step_env 5)
  = (∅, ErrorPayload invalid_name_message [])
  ∧ (∃ message,
       think read_only_store (partial sample_name) (step_env 5)
       = (read_only_store, ErrorPayload message []))
  ∧ (∃ message,
       think locked_store (partial sample_name) (step_env 5)
       = (locked_store, ErrorPayload message []))
  ∧ (∃ r, snd (think write_only_store (partial sample_name) (step_env 5)) = ThinkOk r)
  ∧ loadSession (fst (think write_only_store (partial sample_name) (step_env 5)))
                sample_name = [].
Proof.
  split; [vm_compute; reflexivity|].
  split; [eexists; vm_compute; reflexivity|].
  split; [eexists; vm_compute; reflexivity|].
  split; [eexists; vm_compute; reflexivity|].
  vm_compute. reflexivity.
Qed.

(* ===================================================================== *)
(** * Relationship lists: consistency                                     *)
(* ===================================================================== *)

Lemma pushed_refl target rel t : id t ≠ target → pushed target rel t t.
Proof. intros H. unfold pushed. by rewrite decide_False. Qed.

Lemma push_relationship_in_spec target rel thoughts :
  NoDup (map id thoughts) →
  Forall2 (pushed target rel) thoughts (push_relationship_in target rel thoughts).
Proof.
  induction thoughts as [|t rest IH]; simpl; [constructor|].
  intros [Hfirst Hrest]%NoDup_cons.
  destruct (String.eqb_spec (id t) target) as [Heq|Hne].
  - constructor.
    + unfold pushed. simpl. by rewrite decide_True.
    + apply Forall2_same_length_lookup_2; [done|].
      intros i x y Hx Hy. assert (x = y) as <- by congruence.
      apply pushed_refl. intros Hid. apply Hfirst. rewrite Heq, <- Hid.
      apply list_elem_of_In, in_map, list_elem_of_In.
      by eapply list_elem_of_lookup_2.
  - constructor; [by apply pushed_refl|by apply IH].
Qed.

Lemma push_relationship_in_ids target rel thoughts :
  map id (push_relationship_in target rel thoughts) = map id thoughts.
Proof.
  induction thoughts as [|t rest IH]; simpl; [done|].
  destruct (String.eqb (id t) target); simpl; [done|by rewrite IH].
Qed.

Lemma pushed_preimage target rel thoughts t' :
  NoDup (map id thoughts) →
  t' ∈ push_relationship_in target rel thoughts →
  ∃ t, t ∈ thoughts ∧ pushed target rel t t'.
Proof.
  intros Hnd Hin.
  apply list_elem_of_lookup in Hin as [i Hi].
  pose proof (push_relationship_in_spec target rel thoughts Hnd) as HF.
  destruct (Forall2_lookup_r _ _ _ _ _ HF Hi) as (t & Ht & Hp).
  exists t. split; [by eapply list_elem_of_lookup_2|done].
Qed.

Lemma id_elem_of (t : thought) thoughts : t ∈ thoughts → id t ∈ map id thoughts.
Proof. intros H. by apply list_elem_of_In, in_map, list_elem_of_In. Qed.

Lemma well_linked_nil : well_linked [].
Proof.
  split; [constructor|]. split.
  - intros t rel Ht. by apply elem_of_nil in Ht.
  - intros A B T HA. by apply elem_of_nil in HA.
Qed.

(** Appending a thought without a link keeps the lists consistent. *)
Lemma well_linked_append_plain thoughts n :
  well_linked thoughts →
  id n ∉ map id thoughts →
  relationships_in n = [] → relationships_out n = [] →
  well_linked (thoughts ++ [n]).
Proof.
  intros (Hnd & Hclosed & Hcons) Hfresh Hin Hout.
  split; [|split].
  - rewrite map_app. simpl. apply NoDup_app. split; [done|]. split.
    + intros i Hi ->%list_elem_of_singleton. done.
    + apply NoDup_singleton.
  - intros t rel [Ht| ->%list_elem_of_singleton]%elem_of_app Hrel.
    + rewrite map_app. apply elem_of_app. left. by eapply Hclosed.
    + rewrite Hin, Hout in Hrel. by apply elem_of_nil in Hrel.
  - intros A B T [HA| ->%list_elem_of_singleton]%elem_of_app
                 [HB| ->%list_elem_of_singleton]%elem_of_app.
    + by apply Hcons.
    + rewrite Hin. split; [by intros ?%elem_of_nil|].
      intros H. exfalso. apply Hfresh.
      apply (Hclosed A (Relationship (id n) T) HA), elem_of_app. by right.
    + rewrite Hout. split; [|by intros ?%elem_of_nil].
      intros H. exfalso. apply Hfresh.
      apply (Hclosed B (Relationship (id n) T) HB), elem_of_app. by left.
    + rewrite Hin, Hout. done.
Qed.

(** Appending a thought linked to a stored one, and recording the link
    on the target, keeps the lists consistent. *)
Lemma well_linked_append_linked thoughts nid target ty n :
  well_linked thoughts →
  nid ∉ map id thoughts →
  target ∈ map id thoughts →
  id n = nid →
  relationships_in n = [] →
  relationships_out n = [Relationship target ty] →
  well_linked (push_relationship_in target (Relationship nid ty) thoughts ++ [n]).
Proof.
  intros (Hnd & Hclosed & Hcons) Hfresh Htarget Hid Hin Hout.
  set (rel := Relationship nid ty).
  set (P := push_relationship_in target rel thoughts).
  assert (Hids : map id P = map id thoughts) by apply push_relationship_in_ids.
  assert (Hpre : ∀ t', t' ∈ P → ∃ t, t ∈ thoughts ∧ pushed target rel t t')
    by (intros t'; by apply pushed_preimage).
  assert (Hne : target ≠ nid) by (intros ->; done).
  assert (Hold_in : ∀ t T, t ∈ thoughts → Relationship nid T ∉ relationships_in t).
  { intros t T Ht H. apply Hfresh.
    apply (Hclosed t (Relationship nid T) Ht), elem_of_app. by left. }
  assert (Hold_out : ∀ t T, t ∈ thoughts → Relationship nid T ∉ relationships_out t).
  { intros t T Ht H. apply Hfresh.
    apply (Hclosed t (Relationship nid T) Ht), elem_of_app. by right. }
  split; [|split].
  - rewrite map_app, Hids. simpl. apply NoDup_app. split; [done|]. split.
    + intros i Hi ->%list_elem_of_singleton. by rewrite Hid in Hi.
    + apply NoDup_singleton.
  - intros t' r [Ht| ->%list_elem_of_singleton]%elem_of_app Hr;
      rewrite map_app, Hids; apply elem_of_app.
    + destruct (Hpre t' Ht) as (t & Hmem & _ & Ho & Hi).
      rewrite Ho, Hi in Hr. apply elem_of_app in Hr as [Hr|Hr].
      * case_decide.
        -- apply elem_of_app in Hr as [Hr| ->%list_elem_of_singleton].
           ++ left. apply (Hclosed t r Hmem), elem_of_app. by left.
           ++ right. simpl. rewrite Hid. by apply list_elem_of_singleton.
        -- left. apply (Hclosed t r Hmem), elem_of_app. by left.
      * left. apply (Hclosed t r Hmem), elem_of_app. by right.
    + rewrite Hin, Hout in Hr. simpl in Hr.
      apply list_elem_of_singleton in Hr as ->. by left.
  - intros A' B' T [HA| ->%list_elem_of_singleton]%elem_of_app
                   [HB| ->%list_elem_of_singleton]%elem_of_app.
    + destruct (Hpre A' HA) as (A & HAm & HAid & HAo & _).
      destruct (Hpre B' HB) as (B & HBm & HBid & _ & HBi).
      rewrite HAid, HBid, HAo, HBi, <- (Hcons A B T HAm HBm).
      case_decide as Hd; [|done]. rewrite elem_of_app, list_elem_of_singleton.
      split; [|by left]. intros [Hm|Hm]; [done|].
      exfalso. apply Hfresh. injection Hm as Hm _. rewrite <- Hm. by apply id_elem_of.
    + destruct (Hpre A' HA) as (A & HAm & HAid & HAo & _).
      rewrite Hin, Hid, HAo. split; [by intros ?%elem_of_nil|].
      intros H. by apply Hold_out in H.
    + destruct (Hpre B' HB) as (B & HBm & HBid & _ & HBi).
      rewrite Hout, Hid, HBid, HBi, list_elem_of_singleton.
      case_decide as Hd.
      * rewrite elem_of_app, list_elem_of_singleton. subst rel. split.
        -- intros [H|H]; [by apply Hold_in in H|]. injection H as ->. by rewrite Hd.
        -- intros H. injection H as _ ->. by right.
      * split; [intros H; by apply Hold_in in H|].
        intros H. injection H as H _. done.
    + rewrite Hin, Hout, Hid, list_elem_of_singleton.
      split; [by intros ?%elem_of_nil|]. intros H. injection H as H _. done.
Qed.

Lemma load_save_other fs session thoughts clock fs' name :
  saveSession fs session thoughts clock = Ok fs' →
  session_file name ≠ session_file session →
  loadSession fs' name = loadSession fs name.
Proof.
  intros (_ & born & ->)%saveSession_insert Hne.
  by rewrite !loadSession_lookup, lookup_insert_ne.
Qed.

(** A successful [think] saves [appended] in the settled session, and a
    recorded link names a stored thought other than the new one. *)
Lemma think_success fs args env fs' r :
  think fs args env = (fs', ThinkOk r) →
  ∃ session,
    session_of args env = Ok session
    ∧ saveSession fs session (appended (loadSession fs session) args env)
                  (save_clock env) = Ok fs'
    ∧ ∀ target ty, link_requested args = Some (target, ty) →
        target ≠ new_thought_id env
        ∧ target ∈ map id (loadSession fs session).
Proof.
  rewrite think_session.
  destruct (session_of args env) as [session|message]; [|done].
  intros Hthink. exists session. split; [done|].
  destruct (link_requested args) as [[target ty]|] eqn:Hlink.
  - rewrite (think_in_session_linked _ _ _ _ _ target ty Hlink) in Hthink.
    destruct (String.eqb_spec target (new_thought_id env)) as [|Hne]; [done|].
    destruct (find_thought target (loadSession fs session)) as [t|] eqn:Hfind;
      [|done].
    destruct (timestamp t >? thought_clock env)%Z; [done|].
    cbv zeta in Hthink. unfold saved_or_error in Hthink.
    destruct (saveSession _ _ _ _) as [fs1|message]; [|done].
    injection Hthink as <- _. split; [done|].
    intros target' ty' [= <- <-]. split; [done|].
    apply find_thought_Some in Hfind as [<- Hin]. by apply id_elem_of.
  - rewrite think_in_session_unlinked in Hthink by done.
    unfold saved_or_error in Hthink.
    destruct (saveSession _ _ _ _) as [fs1|message]; [|done].
    injection Hthink as <- _. split; [done|]. intros ? ? [=].
Qed.

Lemma appended_well_linked thoughts args env :
  well_linked thoughts →
  new_thought_id env ∉ map id thoughts →
  (∀ target ty, link_requested args = Some (target, ty) →
     target ≠ new_thought_id env ∧ target ∈ map id thoughts) →
  well_linked (appended thoughts args env).
Proof.
  intros Hwl Hfresh Hlink. unfold appended.
  destruct (link_requested args) as [[target ty]|].
  - destruct (Hlink target ty eq_refl) as [_ Htarget].
    by apply well_linked_append_linked.
  - by apply well_linked_append_plain.
Qed.

Lemma reachable_well_linked fs :
  reachable fs → ∀ name, well_linked (loadSession fs name).
Proof.
  induction 1 as [|fs args env fs' r Hreach IH Hfresh Hthink]; intros name.
  - rewrite loadSession_lookup, lookup_empty. apply well_linked_nil.
  - apply think_success in Hthink as (session & Hsession & Hsave & Hlink).
    destruct (decide (session_file name = session_file session)) as [Heq|Hne].
    + rewrite loadSession_lookup, Heq, <- loadSession_lookup.
      destruct (can_read fs (session_file session)) eqn:Hr.
      * rewrite (load_save _ _ _ _ _ Hsave Hr). apply appended_well_linked; auto.
      * rewrite (load_save_blind _ _ _ _ _ Hsave Hr). apply well_linked_nil.
    + rewrite (load_save_other _ _ _ _ _ _ Hsave) by done. apply IH.
Qed.

(** C5: in every store reached from the empty one by successful calls of
    [think] (each drawing an id new to its session), for all thoughts [A]
    and [B] of a session and every relationship type [T], [B] has the
    inbound entry [{A, T}] if and only if [A] has the outbound entry
    [{B, T}]. *)
Theorem C5_relationships_consistent fs name A B T :
  reachable fs →
  A ∈ loadSession fs name → B ∈ loadSession fs name →
  Relationship (id A) T ∈ relationships_in B
  ↔ Relationship (id B) T ∈ relationships_out A.
Proof.
  intros Hreach HA HB.
  destruct (reachable_well_linked fs Hreach name) as (_ & _ & Hcons).
  by apply Hcons.
Qed.

Lemma think_result_eq (p : store * payload) r :
  snd p = ThinkOk r → p = (fst p, ThinkOk r).
Proof. destruct p. simpl. by intros ->. Qed.

Lemma grown_store_reachable n : n ≤ 3 → reachable (grown_store n).
Proof.
  assert (Hstep : ∀ k, k < 3 → reachable (grown_store k) → reachable (grown_store (S k))).
  { intros k Hk Hr. cbn [grown_store].
    assert (k = 0 ∨ k = 1 ∨ k = 2) as [-> | [-> | ->]] by lia;
      (eapply reachable_think; [exact Hr| |apply think_result_eq; vm_compute; reflexivity]);
      intros session Hs; vm_compute in Hs; injection Hs as <-;
      vm_compute; intros Hin;
      repeat (apply elem_of_cons in Hin as [Hin|Hin]; [discriminate Hin|]);
      by apply elem_of_nil in Hin. }
  intros Hn.
  assert (n = 0 ∨ n = 1 ∨ n = 2 ∨ n = 3) as [-> | [-> | [-> | ->]]] by lia.
  - constructor.
  - apply Hstep; [lia|]. constructor.
  - do 2 (apply Hstep; [lia|]). constructor.
  - do 3 (apply Hstep; [lia|]). constructor.
Qed.

(* ===================================================================== *)
(** * Session store: absence, rename, read failures                       *)
(* ===================================================================== *)

Lemma C5_relationships_consistent_witness :
  let A := nth 1 (grown_session 2) (plain_thought EmptyString EmptyString linear [] 0) in
  let B := nth 0 (grown_session 2) (plain_thought EmptyString EmptyString linear [] 0) in
  Relationship (id A) builds_on ∈ relationships_in B
  ↔ Relationship (id B) builds_on ∈ relationships_out A.
Proof.
  apply (C5_relationships_consistent (grown_store 2) sample_name).
  - apply grown_store_reachable. lia.
  - vm_compute. repeat constructor.
  - vm_compute. repeat constructor.
Defined.

(** C7: when the session's file is absent, [loadSession] returns the
    empty list, and [delete_session] returns an error payload and leaves
    the store as it is - for every session name. *)
Theorem C7_absent_read_vs_delete fs name clock :
  fs !! session_file name = None →
  loadSession fs name = []
  ∧ ∃ message,
      delete_session fs name clock
      = (fs, ErrorPayload "Failed to delete session" [("message", message)]).
Proof.
  intros Habsent. split; [by apply loadSession_absent|].
  unfold delete_session.
  destruct (validateSessionName name) as [?|message]; [|by exists message].
  unfold Fs.unlink. fold (session_file name). rewrite Habsent. eauto.
Qed.

Lemma C7_absent_read_vs_delete_witness :
  loadSession ∅ sample_name = []
  ∧ ∃ message,
      delete_session ∅ sample_name 9
      = (∅, ErrorPayload "Failed to delete session" [("message", message)]).
Proof.
  apply (C7_absent_read_vs_delete ∅ sample_name 9). reflexivity.
Defined.

Lemma loadSession_nonempty fs name :
  loadSession fs name ≠ [] →
  ∃ w born modified,
    fs !! session_file name
    = Some (File (JsonThoughts (loadSession fs name)) w born modified).
Proof.
  rewrite loadSession_lookup.
  destruct (fs !! session_file name) as [[[ts| |] w born modified]|]; try done.
  eauto.
Qed.

(** C9, as the code has it: with both names valid, a non-empty source
    session, distinct files for the two names and a destination file
    that is absent or open to writing and to reading, [rename_session]
    reports success, the destination holds the source's thoughts -
    whatever it held before, without error or warning - and the source
    is gone. *)
Theorem C9_rename_overwrites fs oldSessionName newSessionName save_clock clock :
  validateSessionName oldSessionName = Ok oldSessionName →
  validateSessionName newSessionName = Ok newSessionName →
  loadSession fs oldSessionName ≠ [] →
  session_file oldSessionName ≠ session_file newSessionName →
  can_write fs (session_file newSessionName) = true →
  can_read fs (session_file newSessionName) = true →
  ∃ fs',
    rename_session fs oldSessionName newSessionName save_clock clock
    = (fs', RenameOk (RenameResponse
              ("Session renamed from " ++ oldSessionName ++ " to " ++ newSessionName)
              oldSessionName newSessionName
              (length (loadSession fs oldSessionName)) clock))
    ∧ loadSession fs' newSessionName = loadSession fs oldSessionName
    ∧ fs' !! session_file oldSessionName = None
    ∧ loadSession fs' oldSessionName = [].
Proof.
  intros Hold Hnew Hsource Hfiles Hw Hr.
  destruct (loadSession_nonempty _ _ Hsource) as (w & born & modified & Hfile).
  unfold rename_session. rewrite Hold, Hnew.
  destruct (loadSession fs oldSessionName) as [|t ts] eqn:Hts; [done|].
  cbn [length Nat.eqb].
  destruct (saveSession_can_write fs newSessionName (t :: ts) save_clock Hw)
    as [fs1 Hsave].
  rewrite Hsave. apply saveSession_insert in Hsave as (_ & born' & ->).
  rewrite Hr. unfold Fs.unlink. fold (session_file oldSessionName).
  rewrite lookup_insert_ne, Hfile by done.
  eexists. split; [reflexivity|].
  split; [|split].
  - rewrite loadSession_lookup, lookup_delete_ne, lookup_insert_eq; done.
  - apply lookup_delete_eq.
  - apply loadSession_absent, lookup_delete_eq.
Qed.

Lemma C9_rename_overwrites_witness :
  ∃ fs',
    rename_session two_sessions "TEMP:1:abc" sample_name 10 11
    = (fs', RenameOk (RenameResponse
              ("Session renamed from " ++ "TEMP:1:abc" ++ " to " ++ sample_name)
              "TEMP:1:abc" sample_name
              (length (loadSession two_sessions "TEMP:1:abc")) 11))
    ∧ loadSession fs' sample_name = loadSession two_sessions "TEMP:1:abc"
    ∧ fs' !! session_file "TEMP:1:abc" = None
    ∧ loadSession fs' "TEMP:1:abc" = [].
Proof.
  apply (C9_rename_overwrites two_sessions "TEMP:1:abc" sample_name 10 11);
    vm_compute; congruence.
Defined.

(** C9 as stated fails: with a non-empty destination and an absent
    source the tool reports "Session not found" and the destination keeps
    its thoughts; renaming a session to its own name reports success and
    leaves no session at all; with a non-empty destination closed to
    writing the save fails, the tool answers "Failed to rename session"
    and both sessions stay as they were; and with a destination open to
    writing only the tool reports success, yet the destination reads as
    empty afterwards. *)
Lemma C9_counterexample :
  loadSession sample_store sample_name = sample_session
  ∧ rename_session sample_store "TEMP:1:abc" sample_name 10 11
    = (sample_store,
       ErrorPayload "Session not found"
         [("message", "Session TEMP:1:abc does not exist or is empty")])
  ∧ (∃ r, snd (rename_session sample_store sample_name sample_name 10 11) = RenameOk r)
  ∧ loadSession (fst (rename_session sample_store sample_name sample_name 10 11))
                sample_name = []
  ∧ loadSession locked_destination sample_name = sample_session
  ∧ (∃ message,
       rename_session locked_destination "TEMP:1:abc" sample_name 10 11
       = (locked_destination,
          ErrorPayload "Failed to rename session" [("message", message)]))
  ∧ (∃ r, snd (rename_session write_only_destination "TEMP:1:abc" sample_name 10 11)
          = RenameOk r)
  ∧ loadSession (fst (rename_session write_only_destination "TEMP:1:abc"
                        sample_name 10 11)) sample_name = [].
Proof.
  split; [reflexivity|]. split; [reflexivity|].
  split; [eexists; vm_compute; reflexivity|].
  split; [vm_compute; reflexivity|].
  split; [vm_compute; reflexivity|].
  split; [eexists; vm_compute; reflexivity|].
  split; [eexists; vm_compute; reflexivity|].
  vm_compute. reflexivity.
Qed.

Lemma loadSession_unreadable fs name f :
  fs !! session_file name = Some f →
  data f = Unparseable ∨ data f = Unreadable →
  loadSession fs name = [].
Proof.
  intros Hf Hdata. rewrite loadSession_lookup, Hf.
  destruct f as [d ? ?]. simpl in Hdata. by destruct Hdata as [-> | ->].
Qed.

(** C10, as the code has it: [loadSession] returns the empty list for a
    file it cannot read or parse; [view_session], [search_in_session]
    and [rename_session] (such a file being the source) then answer as
    they do when the file is absent, while [get_session_info] still
    reports the file as existing. *)
Theorem C10_read_failure_as_absent fs name f :
  fs !! session_file name = Some f →
  data f = Unparseable ∨ data f = Unreadable →
  let gone := delete (session_file name) fs in
  loadSession fs name = []
  ∧ loadSession gone name = []
  ∧ (∀ max limit offset clock,
       view_session max fs name limit offset clock
       = view_session max gone name limit offset clock)
  ∧ (∀ query limit offset clock,
       search_in_session fs name query limit offset clock
       = search_in_session gone name query limit offset clock
       ∧ ∃ e fields,
           search_in_session fs name query limit offset clock = ErrorPayload e fields)
  ∧ (∀ newSessionName save_clock clock,
       rename_session fs name newSessionName save_clock clock
       = (fs, snd (rename_session gone name newSessionName save_clock clock))
       ∧ ∃ e fields,
           snd (rename_session fs name newSessionName save_clock clock) = ErrorPayload e fields)
  ∧ (validateSessionName name = Ok name → ∀ clock,
       ∃ r r', get_session_info fs name clock = InfoOk r
               ∧ get_session_info gone name clock = InfoOk r'
               ∧ exists_ r = true ∧ exists_ r' = false
               ∧ in_thoughtCount r = 0 ∧ in_thoughtCount r' = 0).
Proof.
  intros Hf Hdata gone.
  assert (Hload : loadSession fs name = []) by by eapply loadSession_unreadable.
  assert (Hgone : loadSession gone name = [])
    by apply loadSession_absent, lookup_delete_eq.
  split; [done|]. split; [done|]. split; [|split; [|split]].
  - intros. unfold view_session. by rewrite Hload, Hgone.
  - intros. unfold search_in_session. rewrite Hload, Hgone. split; [done|].
    destruct (validateSessionName name); simpl; eauto.
  - intros newSessionName save_clock clock.
    unfold rename_session. rewrite Hload, Hgone.
    destruct (validateSessionName name); simpl; [|eauto].
    destruct (validateSessionName newSessionName); simpl; eauto.
  - intros Hvalid clock. unfold get_session_info, Fs.stat. rewrite Hvalid.
    fold (session_file name). rewrite Hf, Hload, Hgone.
    unfold gone. rewrite lookup_delete_eq.
    do 2 eexists. split; [reflexivity|]. split; [reflexivity|]. done.
Qed.

Lemma C10_read_failure_as_absent_witness :
  let name := sample_name in
  let fs := broken_store in
  let gone := delete (session_file name) fs in
  loadSession fs name = []
  ∧ loadSession gone name = []
  ∧ (∀ max limit offset clock,
       view_session max fs name limit offset clock
       = view_session max gone name limit offset clock)
  ∧ (∀ query limit offset clock,
       search_in_session fs name query limit offset clock
       = search_in_session gone name query limit offset clock
       ∧ ∃ e fields,
           search_in_session fs name query limit offset clock = ErrorPayload e fields)
  ∧ (∀ newSessionName save_clock clock,
       rename_session fs name newSessionName save_clock clock
       = (fs, snd (rename_session gone name newSessionName save_clock clock))
       ∧ ∃ e fields,
           snd (rename_session fs name newSessionName save_clock clock) = ErrorPayload e fields)
  ∧ (validateSessionName name = Ok name → ∀ clock,
       ∃ r r', get_session_info fs name clock = InfoOk r
               ∧ get_session_info gone name clock = InfoOk r'
               ∧ exists_ r = true ∧ exists_ r' = false
               ∧ in_thoughtCount r = 0 ∧ in_thoughtCount r' = 0).
Proof.
  apply (C10_read_failure_as_absent broken_store sample_name (File Unparseable true 1 4)).
  - reflexivity.
  - left. reflexivity.
Defined.

(** C10 as stated fails at [get_session_info]: for a file that cannot be
    parsed it answers [exists: true] with the file's dates, for an absent
    one [exists: false] with none, though [loadSession] is empty for
    both. *)
Lemma C10_counterexample :
  loadSession broken_store sample_name = []
  ∧ loadSession ∅ sample_name = []
  ∧ get_session_info broken_store sample_name 9
    = InfoOk (InfoResponse sample_name true 0 None None (Some 1%Z) (Some 4%Z) [] [] 9)
  ∧ get_session_info ∅ sample_name 9
    = InfoOk (InfoResponse sample_name false 0 None None None None [] [] 9)
  ∧ get_session_info broken_store sample_name 9 ≠ get_session_info ∅ sample_name 9.
Proof. repeat split; try reflexivity. vm_compute. discriminate. Qed.

(* ===================================================================== *)
(** * Name codec: further properties                                      *)
(* ===================================================================== *)

Lemma string_app_cons c (s t : string) :
  (String c s ++ t)%string = String c (s ++ t)%string.
Proof. reflexivity. Qed.

Lemma string_app_nil_l (t : string) : (EmptyString ++ t)%string = t.
Proof. reflexivity. Qed.

Lemma string_app_assoc (a b c : string) :
  ((a ++ b) ++ c)%string = (a ++ (b ++ c))%string.
Proof.
  induction a as [|x a IH]; [done|]. rewrite !string_app_cons. by rewrite IH.
Qed.

Lemma string_app_nil_r (a : string) : (a ++ EmptyString)%string = a.
Proof. induction a as [|x a IH]; [done|]. rewrite string_app_cons. by rewrite IH. Qed.

Lemma string_forall_app p (a b : string) :
  string_forall p (a ++ b) = string_forall p a && string_forall p b.
Proof.
  induction a as [|x a IH]; [done|].
  rewrite string_app_cons. cbn [string_forall]. by rewrite IH, andb_assoc.
Qed.

(** The first piece of a split starts with the piece read so far. *)
Lemma split_colons_from_head s : ∀ cur,
  ∃ more rest, split_colons_from s cur = (cur ++ more)%string :: rest.
Proof.
  induction s as [|c r IH]; intros cur; cbn [split_colons_from].
  - exists EmptyString, []. by rewrite string_app_nil_r.
  - destruct (Ascii.eqb c ":").
    + exists EmptyString. eexists. by rewrite string_app_nil_r.
    + destruct (IH (cur ++ String c EmptyString)%string) as (more & rest & ->).
      exists (String c more), rest. by rewrite string_app_assoc.
Qed.

Lemma pattern_scan_split s : ∀ groups cur,
  string_forall is_name_char cur = true →
  pattern_scan s groups (Str.truthy cur) = true
  ↔ Forall is_segment (split_colons_from s cur)
    ∧ 3 ≤ groups + length (split_colons_from s cur).
Proof.
  induction s as [|c r IH]; intros groups cur Hcur; cbn [pattern_scan split_colons_from].
  - rewrite andb_true_iff, Nat.leb_le, Forall_singleton. unfold is_segment.
    simpl. split.
    + intros [Ht Hg]. split; [|lia]. split; [|done]. by destruct cur.
    + intros [[Hne _] Hg]. split; [by destruct cur|lia].
  - destruct (is_name_char c) eqn:Hc.
    + destruct (name_char_facts _ Hc) as (_ & -> & _).
      assert (Hcur' : string_forall is_name_char (cur ++ String c EmptyString) = true).
      { rewrite string_forall_app, Hcur. simpl. by rewrite Hc. }
      rewrite <- (IH groups _ Hcur').
      replace (Str.truthy (cur ++ String c EmptyString)) with true; [done|].
      by destruct cur.
    + destruct (Ascii.eqb c ":") eqn:Hcolon.
      * rewrite andb_true_iff, Forall_cons.
        rewrite (IH (S groups) EmptyString eq_refl). simpl.
        unfold is_segment at 1. split.
        -- intros [Ht [HF Hlen]]. split; [|lia]. split; [|done].
           split; [by destruct cur|done].
        -- intros [[[Hne _] HF] Hlen]. split; [by destruct cur|]. split; [done|lia].
      * split; [done|]. intros [HF _]. exfalso.
        destruct (split_colons_from_head r (cur ++ String c EmptyString)%string)
          as (more & rest & Hsplit).
        rewrite Hsplit in HF. apply Forall_cons in HF as [[_ Hseg] _].
        rewrite !string_forall_app in Hseg. simpl in Hseg.
        rewrite Hc in Hseg. by rewrite andb_false_r in Hseg.
Qed.

(** X1: [validateSessionName] accepts exactly the strings that split at
    colons into at least three segments, each non-empty and made of
    letters, digits, underscores and hyphens; it returns the name
    unchanged, and otherwise throws the format message. *)
Theorem validate_accepts_segments (s : string) :
  (validateSessionName s = Ok s
   ↔ 3 ≤ length (split_colons s) ∧ Forall is_segment (split_colons s))
  ∧ (validateSessionName s = Ok s ∨ validateSessionName s = Throw invalid_name_message).
Proof.
  unfold validateSessionName, SESSION_NAME_PATTERN_test, split_colons.
  pose proof (pattern_scan_split s 0 EmptyString eq_refl) as H. simpl in H.
  destruct (pattern_scan s 0 false); split; auto.
  - split; [intros _; by apply and_comm, H|done].
  - split; [done|]. intros [Hlen HF].
    assert (false = true) by (by apply H). done.
Qed.

Lemma replace_unsafe_safe s :
  string_forall (λ c, negb (is_unsafe_char c)) (replace_unsafe s) = true.
Proof.
  induction s as [|c r IH]; [done|]. cbn [replace_unsafe string_forall].
  rewrite IH, andb_true_r.
  destruct (is_unsafe_char c) eqn:E; [reflexivity|by rewrite E].
Qed.

Lemma collapse_underscores_forall p s :
  string_forall p s = true → string_forall p (collapse_underscores s) = true.
Proof.
  induction s as [|c r IH]; [done|].
  cbn [string_forall]. intros [Hc Hr]%andb_true_iff. specialize (IH Hr).
  destruct r as [|c' r']; [simpl; by rewrite Hc|].
  change (collapse_underscores (String c (String c' r')))
    with (if Ascii.eqb c "_" && Ascii.eqb c' "_"
          then collapse_underscores (String c' r')
          else String c (collapse_underscores (String c' r'))).
  destruct (_ && _); [done|]. cbn [string_forall]. by rewrite Hc, IH.
Qed.

Lemma replace_colons_name_chars s :
  string_forall name_alphabet s = true →
  string_forall is_name_char (replace_colons s) = true.
Proof.
  induction s as [|c r IH]; [done|].
  cbn [string_forall]. intros [Hc Hr]%andb_true_iff. specialize (IH Hr).
  simpl replace_colons. destruct (Ascii.eqb c ":") eqn:Hcolon.
  - cbn [string_forall]. by rewrite IH.
  - unfold name_alphabet in Hc. rewrite Hcolon, orb_false_r in Hc.
    cbn [string_forall]. by rewrite Hc, IH.
Qed.

Lemma replace_unsafe_name_chars s :
  string_forall is_name_char s = true → replace_unsafe s = s.
Proof.
  induction s as [|c r IH]; [done|].
  cbn [string_forall]. intros [Hc Hr]%andb_true_iff.
  destruct (name_char_facts _ Hc) as (Hsafe & _ & _).
  cbn [replace_unsafe]. by rewrite Hsafe, IH.
Qed.

(** X2: whatever string it is given, [sanitizeSessionName] returns a
    name without any of the characters it declares unsafe (no path
    separator, no colon, no control code); for a name accepted by
    [validateSessionName] the result is made of letters, digits,
    underscores and hyphens only. *)
Theorem sanitize_is_filename_safe (s : string) :
  string_forall (λ c, negb (is_unsafe_char c)) (sanitizeSessionName s) = true
  ∧ (validateSessionName s = Ok s →
     string_forall is_name_char (sanitizeSessionName s) = true).
Proof.
  split; [apply replace_unsafe_safe|].
  unfold validateSessionName, SESSION_NAME_PATTERN_test.
  destruct (pattern_scan s 0 false) eqn:Hscan; [|done]. intros _.
  apply pattern_scan_alphabet in Hscan.
  unfold sanitizeSessionName.
  pose proof (replace_colons_name_chars _ (collapse_underscores_forall _ _ Hscan)) as H.
  by rewrite replace_unsafe_name_chars.
Qed.

Lemma sanitize_is_filename_safe_witness :
  string_forall (λ c, negb (is_unsafe_char c)) (sanitizeSessionName sample_name) = true
  ∧ string_forall is_name_char (sanitizeSessionName sample_name) = true.
Proof.
  destruct (sanitize_is_filename_safe sample_name) as [Hsafe Hname].
  split; [exact Hsafe|]. apply Hname. reflexivity.
Defined.

Lemma string_of_uint_digits d :
  string_forall is_digit (DecimalString.NilEmpty.string_of_uint d) = true.
Proof. induction d; simpl; auto. Qed.

Lemma show_Z_digits z :
  (0 ≤ z)%Z →
  Str.truthy (show_Z z) = true ∧ string_forall is_digit (show_Z z) = true.
Proof.
  intros Hz. unfold show_Z. destruct z as [|p|p]; [done| |lia].
  simpl. unfold DecimalString.NilZero.string_of_uint.
  pose proof (string_of_uint_digits (Pos.to_uint p)) as Hd.
  destruct (Pos.to_uint p); (split; [done|exact Hd]).
Qed.

Lemma digit_is_name_char s :
  string_forall is_digit s = true → string_forall is_name_char s = true.
Proof.
  induction s as [|c r IH]; [done|].
  cbn [string_forall]. intros [Hc Hr]%andb_true_iff. rewrite (IH Hr), andb_true_r.
  unfold is_name_char. unfold is_digit in Hc. rewrite Hc.
  by rewrite orb_true_r.
Qed.

(** Scanning through a run of segment characters. *)
Lemma pattern_scan_segment seg : ∀ rest groups seg_open,
  string_forall is_name_char seg = true →
  pattern_scan (seg ++ rest) groups seg_open
  = pattern_scan rest groups (seg_open || Str.truthy seg).
Proof.
  induction seg as [|c r IH]; intros rest groups seg_open.
  - intros _. by rewrite string_app_nil_l, orb_false_r.
  - cbn [string_forall]. intros [Hc Hr]%andb_true_iff.
    rewrite string_app_cons. cbn [pattern_scan]. rewrite Hc, IH by done.
    simpl. by rewrite orb_true_r.
Qed.

Lemma pattern_scan_colon r groups :
  pattern_scan (String ":" r) groups true = pattern_scan r (S groups) false.
Proof. reflexivity. Qed.

Lemma pattern_scan_last seg groups seg_open :
  string_forall is_name_char seg = true →
  pattern_scan seg groups seg_open = (seg_open || Str.truthy seg) && (2 <=? groups).
Proof.
  intros Hseg. rewrite <- (string_app_nil_r seg) at 1.
  by rewrite pattern_scan_segment.
Qed.

(** X3: for a current time that is not negative and a random token over
    the segment characters, the temporary name [TEMP:<time>:<token>]
    passes [validateSessionName] exactly when the token is not empty. *)
Theorem generated_name_valid (timestamp : Z) (random : string) :
  (0 ≤ timestamp)%Z →
  string_forall is_name_char random = true →
  validateSessionName (generateRandomSessionName timestamp random)
  = Ok (generateRandomSessionName timestamp random)
  ↔ random ≠ EmptyString.
Proof.
  intros Hts Hrandom.
  destruct (show_Z_digits timestamp Hts) as [Hne Hdigits].
  apply digit_is_name_char in Hdigits.
  unfold validateSessionName, SESSION_NAME_PATTERN_test, generateRandomSessionName.
  assert (Hscan : pattern_scan ("TEMP:" ++ show_Z timestamp ++ ":" ++ random) 0 false
                  = Str.truthy random).
  { change ("TEMP:" ++ show_Z timestamp ++ ":" ++ random)%string
      with ("TEMP" ++ String ":" (show_Z timestamp ++ String ":" random))%string.
    rewrite pattern_scan_segment by reflexivity. simpl orb.
    rewrite pattern_scan_colon, pattern_scan_segment by done.
    rewrite Hne. simpl orb.
    rewrite pattern_scan_colon, pattern_scan_last by done.
    simpl. by rewrite andb_true_r. }
  rewrite Hscan. destruct random; simpl; split; congruence.
Qed.

Lemma generated_name_valid_witness :
  validateSessionName (generateRandomSessionName 1740387654321 "abc123")
  = Ok (generateRandomSessionName 1740387654321 "abc123")
  ↔ "abc123" ≠ EmptyString.
Proof.
  apply (generated_name_valid 1740387654321 "abc123"); [lia|reflexivity].
Defined.

(* ===================================================================== *)
(** * Store and think: further properties                                 *)
(* ===================================================================== *)


Example save_refused_or_unread :
  (∃ message, saveSession read_only_store sample_name [] 9 = Throw message)
  ∧ loadSession read_only_store sample_name = sample_session
  ∧ ∃ fs', saveSession write_only_store sample_name sample_session 9 = Ok fs'
           ∧ loadSession fs' sample_name = [].
Proof.
  split; [eexists; vm_compute; reflexivity|]. split; [reflexivity|].
  eexists. split; vm_compute; reflexivity.
Qed.

(** X5: when [think] answers with the name-format message or one of the
    three link errors, or answers an error while the session's file is
    closed to writing, it leaves the store as it found it; of these
    errors only "Referenced thought not found" carries a field, the id
    that was asked for. *)
Theorem think_error_keeps_store fs args env e fields :
  snd (think fs args env) = ErrorPayload e fields →
  (e = invalid_name_message ∨ e = "Cannot reference self"
   ∨ e = "Referenced thought not found"
   ∨ e = "Cannot reference future thoughts")%string
  ∨ (∃ session, session_of args env = Ok session
                ∧ can_write fs (session_file session) = false) →
  fst (think fs args env) = fs
  ∧ fields = match e with
             | "Referenced thought not found" =>
                 [("thought_id", default EmptyString (relates_to_arg args))]
             | _ => []
             end.
Proof.
  intros Herr _. revert Herr. rewrite think_session.
  destruct (session_of args env) as [session|message] eqn:Hs.
  - destruct (link_requested args) as [[target ty]|] eqn:Hlink.
    + rewrite (think_in_session_linked _ _ _ _ _ target ty Hlink).
      assert (Htarget : relates_to_arg args = Some target).
      { unfold link_requested in Hlink.
        destruct (relates_to_arg args) as [r|]; [|done].
        destruct (relationship_type_arg args); [|done].
        destruct (Str.truthy r); congruence. }
      rewrite Htarget.
      destruct (String.eqb target (new_thought_id env)).
      { simpl. by intros [= <- <-]. }
      destruct (find_thought target (loadSession fs session)) as [t|].
      2:{ simpl. by intros [= <- <-]. }
      destruct (timestamp t >? thought_clock env)%Z.
      { simpl. by intros [= <- <-]. }
      cbv zeta. unfold saved_or_error.
      destruct (saveSession _ _ _ _) as [fs'|message] eqn:Hsave; [done|].
      apply saveSession_Throw in Hsave as (_ & rest & ->).
      simpl. by intros [= <- <-].
    + rewrite think_in_session_unlinked by done. unfold saved_or_error.
      destruct (saveSession _ _ _ _) as [fs'|message] eqn:Hsave; [done|].
      apply saveSession_Throw in Hsave as (_ & rest & ->).
      simpl. by intros [= <- <-].
  - simpl. intros [= <- <-].
    assert (message = invalid_name_message) as ->.
    { unfold session_of, validateSessionName in Hs.
      destruct (sessionName args) as [s|]; [|done].
      destruct (Str.truthy s); [|done].
      destruct (SESSION_NAME_PATTERN_test s); congruence. }
    done.
Qed.

Lemma think_error_keeps_store_witness :
  fst (think read_only_store
         (ThinkArgs "more" (Some sample_name) None None (Some "ghost") (Some supports))
         (step_env 5)) = read_only_store
  ∧ [("thought_id", "ghost")]
    = [("thought_id",
        default EmptyString
          (relates_to_arg
             (ThinkArgs "more" (Some sample_name) None None (Some "ghost")
                        (Some supports))))].
Proof.
  apply (think_error_keeps_store read_only_store
           (ThinkArgs "more" (Some sample_name) None None (Some "ghost") (Some supports))
           (step_env 5) "Referenced thought not found" [("thought_id", "ghost")]).
  - reflexivity.
  - left. right. right. left. reflexivity.
Defined.

Lemma same_but_inbound_refl t : same_but_inbound t t.
Proof. repeat split; try done. exists []. by rewrite app_nil_r. Qed.

Lemma push_relationship_in_same target rel thoughts :
  Forall2 same_but_inbound thoughts (push_relationship_in target rel thoughts).
Proof.
  induction thoughts as [|t rest IH]; simpl; [constructor|].
  destruct (String.eqb (id t) target).
  - constructor.
    + repeat split; try done. by exists [rel].
    + apply Forall2_same_length_lookup_2; [done|].
      intros i x y Hx Hy. assert (x = y) as <- by congruence.
      apply same_but_inbound_refl.
  - constructor; [apply same_but_inbound_refl|done].
Qed.

(** A successful [think], with the fields of its response. *)
Lemma think_success_response fs args env fs' r :
  think fs args env = (fs', ThinkOk r) →
  ∃ session,
    session_of args env = Ok session
    ∧ saveSession fs session (appended (loadSession fs session) args env)
                  (save_clock env) = Ok fs'
    ∧ tr_sessionName r = session
    ∧ thoughtId r = new_thought_id env
    ∧ thinking r = reasoning args
    ∧ thoughtCount r = length (appended (loadSession fs session) args env)
    ∧ match link_requested args with
      | Some (target, ty) =>
          tr_related_context r
          = (related_context_of (appended (loadSession fs session) args env)
                                target ty).1
          ∧ reasoning_chain r
            = (related_context_of (appended (loadSession fs session) args env)
                                  target ty).2
      | None => tr_related_context r = None ∧ reasoning_chain r = None
      end.
Proof.
  rewrite think_session.
  destruct (session_of args env) as [session|message]; [|done].
  intros Hthink. exists session. split; [done|].
  destruct (link_requested args) as [[target ty]|] eqn:Hlink.
  - rewrite (think_in_session_linked _ _ _ _ _ target ty Hlink) in Hthink.
    destruct (String.eqb target (new_thought_id env)); [done|].
    destruct (find_thought target (loadSession fs session)) as [t|]; [|done].
    destruct (timestamp t >? thought_clock env)%Z; [done|].
    cbv zeta in Hthink. unfold saved_or_error in Hthink.
    destruct (saveSession _ _ _ _) as [fs1|message]; [|done].
    injection Hthink as <- <-. simpl. done.
  - rewrite think_in_session_unlinked in Hthink by done.
    unfold saved_or_error in Hthink.
    destruct (saveSession _ _ _ _) as [fs1|message]; [|done].
    injection Hthink as <- <-. simpl. done.
Qed.

Lemma appended_split thoughts args env :
  ∃ kept,
    appended thoughts args env = kept ++ [new_thought args env (link_requested args)]
    ∧ Forall2 same_but_inbound thoughts kept.
Proof.
  unfold appended. destruct (link_requested args) as [[target ty]|].
  - eexists. split; [done|]. apply push_relationship_in_same.
  - exists thoughts. split; [done|].
    apply Forall2_same_length_lookup_2; [done|].
    intros i x y Hx Hy. assert (x = y) as <- by congruence.
    apply same_but_inbound_refl.
Qed.

(** X6: a successful [think] appends exactly one thought to its session:
    the list it saves - and that a later read returns, unless the file is
    closed to reading - is the old one, thought by thought the same
    except for inbound relationship entries added at the end, followed by
    the new thought, which carries the reasoning text unchanged and the
    id and count reported in the response; every session stored in
    another file is left as it was. *)
Theorem think_appends_one fs args env fs' r :
  think fs args env = (fs', ThinkOk r) →
  ∃ kept n,
    saveSession fs (tr_sessionName r) (kept ++ [n]) (save_clock env) = Ok fs'
    ∧ (can_read fs (session_file (tr_sessionName r)) = true →
         loadSession fs' (tr_sessionName r) = kept ++ [n])
    ∧ Forall2 same_but_inbound (loadSession fs (tr_sessionName r)) kept
    ∧ id n = thoughtId r ∧ content n = reasoning args
    ∧ timestamp n = thought_clock env
    ∧ relationships_in n = []
    ∧ thoughtCount r = S (length (loadSession fs (tr_sessionName r)))
    ∧ ∀ other, session_file other ≠ session_file (tr_sessionName r) →
        loadSession fs' other = loadSession fs other.
Proof.
  intros (session & Hs & Hsave & -> & Hid & _ & Hcount & _)%think_success_response.
  destruct (appended_split (loadSession fs session) args env) as (kept & Happ & Hkept).
  exists kept, (new_thought args env (link_requested args)).
  rewrite Hcount, Hid, <- Happ.
  split; [done|]. split; [by eapply load_save|]. split; [done|].
  do 4 (split; [done|]). split.
  - rewrite Happ, length_app. simpl. apply Forall2_length in Hkept. lia.
  - intros other Hother. by eapply load_save_other.
Qed.

Lemma think_appends_one_witness :
  let args := ThinkArgs "more" (Some sample_name) None None None None in
  let out := think sample_store args (step_env 5) in
  ∃ kept n,
    saveSession sample_store sample_name (kept ++ [n]) (save_clock (step_env 5))
    = Ok (fst out)
    ∧ (can_read sample_store (session_file sample_name) = true →
         loadSession (fst out) sample_name = kept ++ [n])
    ∧ Forall2 same_but_inbound (loadSession sample_store sample_name) kept
    ∧ id n = step_id 5 ∧ content n = "more"
    ∧ timestamp n = 5%Z
    ∧ relationships_in n = []
    ∧ 5 = S (length (loadSession sample_store sample_name))
    ∧ ∀ other, session_file other ≠ session_file sample_name →
        loadSession (fst out) other = loadSession sample_store other.
Proof.
  apply (think_appends_one sample_store
           (ThinkArgs "more" (Some sample_name) None None None None) (step_env 5)
           _ (ThinkResponse "more" (step_id 5) sample_name linear [] 5 5 true
                None None false)).
  vm_compute. reflexivity.
Defined.

(** A successful [think] with a link found its target among the stored
    thoughts. *)
Lemma think_linked_target fs args env fs' r session target ty :
  session_of args env = Ok session →
  link_requested args = Some (target, ty) →
  think fs args env = (fs', ThinkOk r) →
  ∃ t, find_thought target (loadSession fs session) = Some t.
Proof.
  intros Hs Hlink. rewrite think_session, Hs.
  rewrite (think_in_session_linked _ _ _ _ _ target ty Hlink).
  destruct (String.eqb target (new_thought_id env)); [done|].
  destruct (find_thought target (loadSession fs session)) as [t|]; [|done].
  eauto.
Qed.


Example think_link_refused_read_only :
  let args := ThinkArgs "more" (Some sample_name) None None
                        (Some "thought_2_bbbbb") (Some contradicts) in
  (∃ t, find_thought "thought_2_bbbbb" (loadSession read_only_store sample_name) = Some t
        ∧ (timestamp t ≤ thought_clock (step_env 5))%Z)
  ∧ ∃ message, think read_only_store args (step_env 5)
               = (read_only_store, ErrorPayload message []).
Proof.
  split; [eexists; split; [vm_compute; reflexivity|vm_compute; discriminate]|].
  eexists. vm_compute. reflexivity.
Qed.


Lemma find_thought_pushed target rel thoughts more t :
  find_thought target thoughts = Some t →
  find_thought target (push_relationship_in target rel thoughts ++ more)
  = Some (Thought (id t) (content t) (mode t) (tags t) (timestamp t)
                  (relates_to t) (relationship_type t)
                  (relationships_in t ++ [rel]) (relationships_out t)).
Proof.
  unfold find_thought.
  induction thoughts as [|x rest IH]; simpl; [done|].
  destruct (String.eqb (id x) target) eqn:Hx; simpl.
  - intros [= <-]. by rewrite Hx.
  - rewrite Hx. apply IH.
Qed.

(** X8: when [think] records a link, the new thought is saved with
    [relates_to], [relationship_type] and a single outbound entry naming
    the target, the first stored thought with the target id gains the
    matching inbound entry at the end of its list, and the response
    carries a related context, with a reasoning chain exactly for
    [builds_on]. *)
Theorem think_records_link fs args env fs' r target ty :
  link_requested args = Some (target, ty) →
  think fs args env = (fs', ThinkOk r) →
  ∃ t t' n,
    find_thought target (loadSession fs (tr_sessionName r)) = Some t
    ∧ find_thought target (loadSession fs' (tr_sessionName r)) = Some t'
    ∧ relationships_in t' = relationships_in t ++ [Relationship (thoughtId r) ty]
    ∧ last (loadSession fs' (tr_sessionName r)) = Some n
    ∧ relates_to n = Some target ∧ relationship_type n = Some ty
    ∧ relationships_out n = [Relationship target ty]
    ∧ is_Some (tr_related_context r)
    ∧ (is_Some (reasoning_chain r) ↔ ty = builds_on).
Proof.
  intros Hlink Hthink.
  pose proof Hthink as (session & Hs & Hsave & -> & Hid & _ & _ & Hctx)%think_success_response.
  rewrite Hlink in Hctx. destruct Hctx as [Hrel Hchain].
  destruct (think_linked_target _ _ _ _ _ session target ty Hs Hlink Hthink)
    as [t Hfind].
  assert (Hr : can_read fs (session_file session) = true).
  { apply loadSession_can_read. intros Hnil. by rewrite Hnil in Hfind. }
  rewrite (load_save _ _ _ _ _ Hsave Hr), Hid.
  assert (Happ : appended (loadSession fs session) args env
                 = push_relationship_in target (Relationship (new_thought_id env) ty)
                     (loadSession fs session)
                   ++ [new_thought args env (Some (target, ty))]).
  { unfold appended. by rewrite Hlink. }
  pose proof (find_thought_pushed target (Relationship (new_thought_id env) ty) _
                [new_thought args env (Some (target, ty))] t Hfind) as Hfind'.
  rewrite <- Happ in Hfind'.
  eexists t, _, (new_thought args env (Some (target, ty))).
  split; [done|]. split; [exact Hfind'|]. split; [done|].
  split; [by rewrite Happ, last_snoc|]. do 3 (split; [done|]).
  rewrite Hrel, Hchain. unfold related_context_of. rewrite Hfind'.
  case_bool_decide as Hty; simpl.
  - split; [by eexists|]. split; [done|by eexists].
  - split; [by eexists|]. split; [by intros [? [=]]|done].
Qed.

Lemma think_records_link_witness :
  let args := ThinkArgs "more" (Some sample_name) None None
                        (Some "thought_2_bbbbb") (Some contradicts) in
  let out := think sample_store args (step_env 5) in
  ∃ t t' n,
    find_thought "thought_2_bbbbb" (loadSession sample_store sample_name) = Some t
    ∧ find_thought "thought_2_bbbbb" (loadSession (fst out) sample_name) = Some t'
    ∧ relationships_in t' = relationships_in t ++ [Relationship (step_id 5) contradicts]
    ∧ last (loadSession (fst out) sample_name) = Some n
    ∧ relates_to n = Some "thought_2_bbbbb" ∧ relationship_type n = Some contradicts
    ∧ relationships_out n = [Relationship "thought_2_bbbbb" contradicts]
    ∧ is_Some (Some (RelatedThought contradicts "thought_2_bbbbb"
                       "AMD ships the MI300X..." critical))
    ∧ (is_Some (@None chain_result) ↔ contradicts = builds_on).
Proof.
  apply (think_records_link sample_store
           (ThinkArgs "more" (Some sample_name) None None
                      (Some "thought_2_bbbbb") (Some contradicts))
           (step_env 5) _
           (ThinkResponse "more" (step_id 5) sample_name linear [] 5 5 true
              (Some (RelatedThought contradicts "thought_2_bbbbb"
                       "AMD ships the MI300X..." critical))
              None false)
           "thought_2_bbbbb" contradicts).
  - reflexivity.
  - vm_compute. reflexivity.
Defined.

(* ===================================================================== *)
(** * View, delete, rename: further properties                            *)
(* ===================================================================== *)

Lemma view_session_ok max fs name limit offset clock :
  validateSessionName name = Ok name →
  0 < limit →
  view_session max fs name (Some limit) offset clock
  = ViewOk (ViewResponse name
              (take limit (drop offset (loadSession fs name)))
              (length (take limit (drop offset (loadSession fs name))))
              (length (loadSession fs name)) limit offset
              (offset + limit <? length (loadSession fs name)) clock).
Proof.
  intros Hvalid Hlimit. unfold view_session, array_slice. rewrite Hvalid.
  destruct limit as [|k]; [lia|].
  by replace (offset + S k - offset) with (S k) by lia.
Qed.

(** X9: for a valid name, [view_session] returns the stored thoughts from
    position [offset] on, oldest first, at most [limit] of them; [count]
    and [totalThoughts] are the page and session lengths; the page that
    follows continues where this one ends, and [hasMore] is false exactly
    when that next page is empty. *)
Theorem view_session_pages max fs name n m offset clock :
  validateSessionName name = Ok name →
  0 < n → 0 < m →
  ∃ r1 r2 r12,
    view_session max fs name (Some n) offset clock = ViewOk r1
    ∧ view_session max fs name (Some m) (offset + n) clock = ViewOk r2
    ∧ view_session max fs name (Some (n + m)) offset clock = ViewOk r12
    ∧ vr_thoughts r1 = take n (drop offset (loadSession fs name))
    ∧ vr_count r1 = min n (length (loadSession fs name) - offset)
    ∧ totalThoughts r1 = length (loadSession fs name)
    ∧ vr_thoughts r1 ++ vr_thoughts r2 = vr_thoughts r12
    ∧ (hasMore r1 = false ↔ vr_thoughts r2 = []).
Proof.
  intros Hvalid Hn Hm.
  rewrite !view_session_ok by (done || lia).
  do 3 eexists. do 3 (split; [reflexivity|]). simpl.
  split; [done|]. split; [by rewrite length_take, length_drop|]. split; [done|].
  split.
  - rewrite <- drop_drop. apply take_take_drop.
  - rewrite Nat.ltb_ge. split.
    + intros Hle. rewrite drop_ge by lia. apply take_nil.
    + intros Hnil. apply take_nil_inv in Hnil as [?|Hnil]; [lia|].
      by apply drop_nil_inv in Hnil.
Qed.

Lemma view_session_pages_witness :
  ∃ r1 r2 r12,
    view_session 50 sample_store sample_name (Some 3) 0 9 = ViewOk r1
    ∧ view_session 50 sample_store sample_name (Some 2) (0 + 3) 9 = ViewOk r2
    ∧ view_session 50 sample_store sample_name (Some (3 + 2)) 0 9 = ViewOk r12
    ∧ vr_thoughts r1 = take 3 (drop 0 (loadSession sample_store sample_name))
    ∧ vr_count r1 = min 3 (length (loadSession sample_store sample_name) - 0)
    ∧ totalThoughts r1 = length (loadSession sample_store sample_name)
    ∧ vr_thoughts r1 ++ vr_thoughts r2 = vr_thoughts r12
    ∧ (hasMore r1 = false ↔ vr_thoughts r2 = []).
Proof.
  apply (view_session_pages 50 sample_store sample_name 3 2 0 9);
    [reflexivity|lia|lia].
Defined.

(** X10: for a valid name whose file exists - readable or not -
    [delete_session] reports success and removes that file only: the
    session then loads as empty, every session stored in another file is
    unchanged, and deleting once more returns an error payload. *)
Theorem delete_session_removes fs name clock f :
  validateSessionName name = Ok name →
  fs !! session_file name = Some f →
  let fs' := delete (session_file name) fs in
  delete_session fs name clock
  = (fs', StatusSuccess ("Session " ++ name ++ " deleted successfully") clock)
  ∧ loadSession fs' name = []
  ∧ (∀ other, session_file other ≠ session_file name →
       loadSession fs' other = loadSession fs other)
  ∧ ∃ message,
      delete_session fs' name clock
      = (fs', ErrorPayload "Failed to delete session" [("message", message)]).
Proof.
  intros Hvalid Hfile fs'. split; [|split; [|split]].
  - unfold delete_session, Fs.unlink. rewrite Hvalid.
    fold (session_file name). by rewrite Hfile.
  - apply loadSession_absent, lookup_delete_eq.
  - intros other Hother. unfold fs'.
    by rewrite !loadSession_lookup, lookup_delete_ne.
  - unfold delete_session, Fs.unlink. rewrite Hvalid.
    fold (session_file name). unfold fs'. rewrite lookup_delete_eq. eauto.
Qed.

Lemma delete_session_removes_witness :
  let fs' := delete (session_file sample_name) broken_store in
  delete_session broken_store sample_name 9
  = (fs', StatusSuccess ("Session " ++ sample_name ++ " deleted successfully") 9)
  ∧ loadSession fs' sample_name = []
  ∧ (∀ other, session_file other ≠ session_file sample_name →
       loadSession fs' other = loadSession broken_store other)
  ∧ ∃ message,
      delete_session fs' sample_name 9
      = (fs', ErrorPayload "Failed to delete session" [("message", message)]).
Proof.
  apply (delete_session_removes broken_store sample_name 9 (File Unparseable true 1 4));
    reflexivity.
Defined.

(** X11: when the old and the new name are valid, the source session is
    not empty, both names are stored in the same file (the new name is
    the old one, for instance) and that file is open to writing,
    [rename_session] reports success with the thought count and removes
    that file: afterwards neither name has a session. *)
Theorem rename_to_same_file fs oldSessionName newSessionName save_clock clock :
  validateSessionName oldSessionName = Ok oldSessionName →
  validateSessionName newSessionName = Ok newSessionName →
  loadSession fs oldSessionName ≠ [] →
  session_file oldSessionName = session_file newSessionName →
  can_write fs (session_file oldSessionName) = true →
  ∃ r,
    rename_session fs oldSessionName newSessionName save_clock clock
    = (delete (session_file oldSessionName) fs, RenameOk r)
    ∧ rn_thoughtCount r = length (loadSession fs oldSessionName)
    ∧ loadSession (delete (session_file oldSessionName) fs) oldSessionName = []
    ∧ loadSession (delete (session_file oldSessionName) fs) newSessionName = [].
Proof.
  intros Hold Hnew Hsource Hsame Hw.
  unfold rename_session. rewrite Hold, Hnew.
  destruct (loadSession fs oldSessionName) as [|t ts] eqn:Hts; [done|].
  cbn [length Nat.eqb]. rewrite Hsame in Hw.
  destruct (saveSession_can_write fs newSessionName (t :: ts) save_clock Hw)
    as [fs1 Hsave].
  rewrite Hsave. apply saveSession_insert in Hsave as (_ & born & ->). unfold Fs.unlink. fold (session_file oldSessionName).
  rewrite <- Hsame, lookup_insert_eq, delete_insert_eq.
  eexists. split; [reflexivity|]. split; [done|].
  split; apply loadSession_absent; [|rewrite <- Hsame]; apply lookup_delete_eq.
Qed.

Lemma rename_to_same_file_witness :
  ∃ r,
    rename_session sample_store sample_name sample_name 10 11
    = (delete (session_file sample_name) sample_store, RenameOk r)
    ∧ rn_thoughtCount r = length (loadSession sample_store sample_name)
    ∧ loadSession (delete (session_file sample_name) sample_store) sample_name = []
    ∧ loadSession (delete (session_file sample_name) sample_store) sample_name = [].
Proof.
  apply (rename_to_same_file sample_store sample_name sample_name 10 11);
    vm_compute; congruence.
Defined.

(** X12: whatever its outcome, [rename_session] touches no file other
    than those of the old and the new name. *)
Theorem rename_session_frame fs oldSessionName newSessionName save_clock clock path :
  path ≠ session_file oldSessionName →
  path ≠ session_file newSessionName →
  fst (rename_session fs oldSessionName newSessionName save_clock clock) !! path
  = fs !! path.
Proof.
  intros Hold Hnew. unfold rename_session.
  destruct (validateSessionName oldSessionName); [|done].
  destruct (validateSessionName newSessionName); [|done].
  destruct (length (loadSession fs oldSessionName) =? 0); [done|].
  destruct (saveSession fs newSessionName (loadSession fs oldSessionName) save_clock)
    as [fs1|message] eqn:Hsave; [|done].
  apply saveSession_insert in Hsave as (_ & born & ->).
  unfold Fs.unlink. fold (session_file oldSessionName).
  destruct (_ !! session_file oldSessionName); simpl.
  - by rewrite lookup_delete_ne, lookup_insert_ne.
  - by rewrite lookup_insert_ne.
Qed.

Lemma rename_session_frame_witness :
  fst (rename_session two_sessions "TEMP:1:abc" "a:b:c" 10 11)
    !! "thesis___NVDA___ai_dominance.json"
  = two_sessions !! "thesis___NVDA___ai_dominance.json".
Proof.
  apply (rename_session_frame two_sessions "TEMP:1:abc" "a:b:c" 10 11);
    vm_compute; congruence.
Defined.

(* ===================================================================== *)
(** * Search and ranking: further properties                              *)
(* ===================================================================== *)

Lemma sort_insert_perm {A} (cmp : A → A → Z) x l :
  sort_insert cmp x l ≡ₚ x :: l.
Proof.
  induction l as [|y r IH]; simpl; [done|].
  destruct (cmp x y <=? 0)%Z; [done|].
  rewrite IH. apply Permutation_swap.
Qed.

Lemma array_sort_perm {A} (cmp : A → A → Z) l : array_sort cmp l ≡ₚ l.
Proof.
  induction l as [|x r IH]; simpl; [done|].
  by rewrite sort_insert_perm, IH.
Qed.

(** X13: the results of [search_in_session] are a page - [limit] entries
    from position [offset] - of a ranking that holds the result of every
    stored thought passing the filter exactly once and nothing else; each
    result on the page is the result of a stored thought that passes. *)
Theorem search_ranks_every_match fs name query limit offset clock r :
  search_in_session fs name query limit offset clock = SearchOk r →
  let q := Str.toLowerCase query in
  (∃ ranking,
      ranking ≡ₚ map (result_of q) (List.filter (matches_query q) (loadSession fs name))
      ∧ results r = take limit (drop offset ranking))
  ∧ ∀ x, x ∈ results r →
      ∃ t, t ∈ loadSession fs name ∧ matches_query q t = true ∧ x = result_of q t.
Proof.
  intros (Hres & _ & _)%search_in_session_inv q.
  assert (Hpage : results r
                  = take limit (drop offset (ranked_matches (loadSession fs name) q))).
  { rewrite Hres. unfold searchResults, array_slice. fold q.
    by replace (offset + limit - offset) with limit by lia. }
  split.
  - exists (ranked_matches (loadSession fs name) q). split; [|done].
    apply array_sort_perm.
  - intros x Hx. rewrite Hpage in Hx.
    apply subseteq_take, subseteq_drop in Hx.
    unfold ranked_matches in Hx. rewrite array_sort_perm in Hx.
    apply list_elem_of_In, in_map_iff in Hx as (t & <- & Ht).
    apply filter_In in Ht as [Ht Hm]. exists t.
    split; [by apply list_elem_of_In|done].
Qed.

Lemma search_ranks_every_match_witness :
  let q := Str.toLowerCase "amd" in
  (∃ ranking,
      ranking ≡ₚ map (result_of q)
                     (List.filter (matches_query q) (loadSession sample_store sample_name))
      ∧ searchResults sample_session "amd" 2 1 = take 2 (drop 1 ranking))
  ∧ ∀ x, x ∈ searchResults sample_session "amd" 2 1 →
      ∃ t, t ∈ loadSession sample_store sample_name
           ∧ matches_query q t = true ∧ x = result_of q t.
Proof.
  apply (search_ranks_every_match sample_store sample_name "amd" 2 1 9
           (SearchResponse sample_name "amd"
              (searchResults sample_session "amd" 2 1) 2 1 2 9)).
  vm_compute. reflexivity.
Defined.

(** ** Substrings *)

Lemma prefix_app q s : String.prefix q s = true ↔ ∃ b, s = (q ++ b)%string.
Proof.
  revert s. induction q as [|c q IH]; intros s.
  - split; [intros _; exists s; reflexivity|intros _; by destruct s].
  - destruct s as [|d s].
    { split; [discriminate|]. intros (b & Hb). discriminate Hb. }
    change (String.prefix (String c q) (String d s))
      with (if ascii_dec c d then String.prefix q s else false).
    destruct (ascii_dec c d) as [->|Hne].
    + rewrite IH. split; intros (b & Hb); exists b.
      * by rewrite string_app_cons, Hb.
      * rewrite string_app_cons in Hb. congruence.
    + split; [done|]. intros (b & Hb). rewrite string_app_cons in Hb. congruence.
Qed.

Lemma includes_app s q :
  Str.includes s q = true ↔ ∃ a b, s = (a ++ q ++ b)%string.
Proof.
  induction s as [|c s IH]; cbn [Str.includes]; rewrite orb_true_iff, prefix_app.
  - split.
    + intros [(b & Hb)|?]; [|done]. by exists EmptyString, b.
    + intros (a & b & Hab). left. destruct a; [by exists b|done].
  - rewrite IH. split.
    + intros [(b & Hb)|(a & b & Hab)].
      * by exists EmptyString, b.
      * exists (String c a), b. by rewrite string_app_cons, Hab.
    + intros (a & b & Hab). destruct a as [|d a].
      * left. by exists b.
      * right. exists a, b. rewrite string_app_cons in Hab. congruence.
Qed.

(** Every piece of a split at white space is a substring. *)
Lemma split_spaces_from_sub s : ∀ cur in_run w,
  (in_run = true → cur = EmptyString) →
  w ∈ Str.split_spaces_from s cur in_run →
  ∃ a b, (cur ++ s)%string = (a ++ w ++ b)%string.
Proof.
  induction s as [|c r IH]; intros cur in_run w Hrun; cbn [Str.split_spaces_from].
  - intros ->%list_elem_of_singleton. exists EmptyString, EmptyString.
    by rewrite string_app_nil_l.
  - destruct (Str.is_space c).
    + destruct in_run.
      * rewrite (Hrun eq_refl). intros Hw.
        destruct (IH EmptyString true w (λ _, eq_refl) Hw) as (a & b & Hab).
        rewrite string_app_nil_l in *. exists (String c a), b.
        by rewrite string_app_cons, Hab.
      * intros [->|Hw]%elem_of_cons.
        -- by exists EmptyString, (String c r).
        -- destruct (IH EmptyString true w (λ _, eq_refl) Hw) as (a & b & Hab).
           rewrite string_app_nil_l in Hab.
           exists (cur ++ String c a)%string, b.
           by rewrite string_app_assoc, string_app_cons, Hab.
    + intros Hw.
      destruct (IH (cur ++ String c EmptyString)%string false w ltac:(done) Hw)
        as (a & b & Hab).
      exists a, b. by rewrite <- Hab, string_app_assoc.
Qed.

Lemma split_spaces_from_cons s : ∀ cur in_run,
  ∃ w rest, Str.split_spaces_from s cur in_run = w :: rest.
Proof.
  induction s as [|c r IH]; intros cur in_run; cbn [Str.split_spaces_from]; [eauto|].
  destruct (Str.is_space c); [destruct in_run|]; eauto.
Qed.

Lemma includes_word content query w :
  Str.includes content query = true →
  w ∈ Str.split_spaces query →
  Str.includes content w = true.
Proof.
  intros (a & b & ->)%includes_app Hw.
  apply (split_spaces_from_sub query EmptyString false w ltac:(done)) in Hw
    as (a' & b' & Hab).
  rewrite string_app_nil_l in Hab. apply includes_app.
  exists (a ++ a')%string, (b' ++ b)%string.
  by rewrite Hab, !string_app_assoc.
Qed.

(** ** Bounds on the score *)

Lemma fold_bonus_ge {A} (p : A → bool) (bonus : Z) l : ∀ score,
  (0 ≤ bonus)%Z →
  (score ≤ fold_left (λ score x, if p x then score + bonus else score) l score)%Z.
Proof.
  induction l as [|x r IH]; intros score Hb; simpl; [lia|].
  destruct (p x); [|by apply IH].
  specialize (IH (score + bonus)%Z Hb). lia.
Qed.

Lemma fold_bonus_hit {A} (p : A → bool) (bonus : Z) l : ∀ score,
  (0 ≤ bonus)%Z →
  existsb p l = true →
  (score + bonus
   ≤ fold_left (λ score x, if p x then score + bonus else score) l score)%Z.
Proof.
  induction l as [|x r IH]; intros score Hb; simpl; [done|].
  destruct (p x); simpl.
  - intros _. apply fold_bonus_ge. done.
  - by apply IH.
Qed.

(** X14: the score of a thought that passes the filter is at least 3, and
    at least 12 when its content contains the query: 10 for the query and
    2 for the first word of the query, which the content then contains as
    well. *)
Theorem score_of_a_match (t : thought) (queryLower : string) :
  matches_query queryLower t = true →
  ((if Str.includes (Str.toLowerCase (content t)) queryLower then 12 else 3)
   ≤ calculateRelevanceScore t queryLower)%Z.
Proof.
  unfold matches_query, calculateRelevanceScore.
  set (c := Str.toLowerCase (content t)).
  set (words := λ score word, if Str.includes c word then (score + 2)%Z else score).
  set (tagged := λ score tag,
         if Str.includes (Str.toLowerCase tag) queryLower then (score + 5)%Z else score).
  intros Hmatch.
  assert (Hrel : ∀ z : Z, (z ≤ if participates t then z + 1 else z)%Z)
    by (intros z; destruct (participates t); lia).
  assert (Hmode : ∀ z : Z,
            (z ≤ if Str.includes (Str.toLowerCase (mode_name (mode t))) queryLower
                 then z + 3 else z)%Z)
    by (intros z;
        destruct (Str.includes (Str.toLowerCase (mode_name (mode t))) queryLower); lia).
  assert (Htags : ∀ z, (z ≤ fold_left tagged (tags t) z)%Z)
    by (intros z; by apply (fold_bonus_ge _ 5%Z)).
  assert (Hwords : ∀ z, (z ≤ fold_left words (Str.split_spaces queryLower) z)%Z)
    by (intros z; by apply (fold_bonus_ge _ 2%Z)).
  destruct (Str.includes c queryLower) eqn:Hcontent.
  - assert (Hword : (10 + 2 ≤ fold_left words (Str.split_spaces queryLower) (0 + 10))%Z).
    { apply (fold_bonus_hit (λ w, Str.includes c w) 2%Z); [lia|].
      unfold Str.split_spaces.
      destruct (split_spaces_from_cons queryLower EmptyString false) as (w & rest & Hsplit).
      rewrite Hsplit. simpl. rewrite (includes_word c queryLower w); [done..|].
      unfold Str.split_spaces. rewrite Hsplit. by left. }
    etrans; [|apply Hrel]. etrans; [|apply Hmode]. etrans; [|apply Htags].
    exact Hword.
  - simpl in Hmatch. apply orb_true_iff in Hmatch as [Htag|Hm].
    + etrans; [|apply Hrel]. etrans; [|apply Hmode].
      pose proof (fold_bonus_hit
                    (λ tag, Str.includes (Str.toLowerCase tag) queryLower) 5%Z
                    (tags t) (fold_left words (Str.split_spaces queryLower) 0%Z)
                    ltac:(lia) Htag) as H5.
      specialize (Hwords 0%Z). unfold tagged. cbv beta in H5 |- *. lia.
    + etrans; [|apply Hrel]. rewrite Hm.
      specialize (Hwords 0%Z).
      specialize (Htags (fold_left words (Str.split_spaces queryLower) 0%Z)). lia.
Qed.

Lemma score_of_a_match_witness :
  ((if Str.includes (Str.toLowerCase "AMD ships the MI300X") "amd" then 12 else 3)
   ≤ calculateRelevanceScore
       (plain_thought "thought_2_bbbbb" "AMD ships the MI300X" critical [] 2) "amd")%Z.
Proof.
  apply (score_of_a_match
           (plain_thought "thought_2_bbbbb" "AMD ships the MI300X" critical [] 2) "amd").
  reflexivity.
Defined.

(** ** find_thought_relationships *)

Lemma find_thought_relationships_inv fs name query types exclude limit clock r :
  find_thought_relationships fs name query types exclude limit clock
  = RelationshipsOk r →
  fr_results r
  = take limit
      (array_sort by_score_desc
         (map (result_of (Str.toLowerCase query))
            (List.filter
               (relationship_candidate (Str.toLowerCase query) types exclude)
               (loadSession fs name))))
  ∧ fr_count r = length (fr_results r).
Proof.
  unfold find_thought_relationships.
  destruct (validateSessionName name); [|done].
  destruct (length (loadSession fs name) =? 0); [done|].
  intros [= <-]. simpl. unfold array_slice. by rewrite Nat.sub_0_r.
Qed.

(** X15: every result of [find_thought_relationships] is the result of a
    stored thought that passes the query filter, whose id is not the
    excluded one and - when a non-empty list of relationship types is
    given - whose relationship type is in that list; [count] is the
    number of results and at most [limit]. *)
Theorem find_relationships_respects_filters
    fs name query types exclude limit clock r :
  find_thought_relationships fs name query types exclude limit clock
  = RelationshipsOk r →
  fr_count r = length (fr_results r)
  ∧ fr_count r ≤ limit
  ∧ ∀ x, x ∈ fr_results r →
      (∃ t, t ∈ loadSession fs name
            ∧ matches_query (Str.toLowerCase query) t = true
            ∧ x = result_of (Str.toLowerCase query) t)
      ∧ (∀ e, exclude = Some e → e ≠ EmptyString → sr_id x ≠ e)
      ∧ (∀ ty tys, types = Some (ty :: tys) →
           ∃ rt, sr_relationship_type x = Some rt ∧ rt ∈ ty :: tys).
Proof.
  intros [Hres Hcount]%find_thought_relationships_inv.
  split; [done|]. split.
  { rewrite Hcount, Hres, length_take. lia. }
  intros x Hx. rewrite Hres in Hx. apply subseteq_take in Hx.
  rewrite array_sort_perm in Hx.
  apply list_elem_of_In, in_map_iff in Hx as (t & <- & Ht).
  apply filter_In in Ht as [Ht Hcand]. unfold relationship_candidate in Hcand.
  destruct (match exclude with
            | Some e => Str.truthy e && String.eqb (id t) e
            | None => false
            end) eqn:Hex; [done|].
  destruct (match types with
            | Some (ty :: tys) =>
                match relationship_type t with
                | Some r => negb (bool_decide (r ∈ ty :: tys))
                | None => true
                end
            | _ => false
            end) eqn:Hty; [done|].
  split; [|split].
  - exists t. split; [by apply list_elem_of_In|done].
  - intros e -> Hne. simpl. intros Hid.
    assert (Str.truthy e = true) as Htruthy by by destruct e.
    rewrite Htruthy, Hid, String.eqb_refl in Hex. done.
  - intros ty tys ->. simpl.
    destruct (relationship_type t) as [rt|]; [|done].
    exists rt. split; [done|].
    apply negb_false_iff, bool_decide_eq_true in Hty. done.
Qed.

Lemma find_relationships_respects_filters_witness :
  let found := take 5 (array_sort by_score_desc
                 (map (result_of (Str.toLowerCase "step"))
                    (List.filter
                       (relationship_candidate (Str.toLowerCase "step")
                          (Some [builds_on]) (Some (step_id 2)))
                       (grown_session 3)))) in
  length found = length found
  ∧ length found ≤ 5
  ∧ ∀ x, x ∈ found →
      (∃ t, t ∈ loadSession (grown_store 3) sample_name
            ∧ matches_query (Str.toLowerCase "step") t = true
            ∧ x = result_of (Str.toLowerCase "step") t)
      ∧ (∀ e, Some (step_id 2) = Some e → e ≠ EmptyString → sr_id x ≠ e)
      ∧ (∀ ty tys, Some [builds_on] = Some (ty :: tys) →
           ∃ rt, sr_relationship_type x = Some rt ∧ rt ∈ ty :: tys).
Proof.
  apply (find_relationships_respects_filters (grown_store 3) sample_name "step"
           (Some [builds_on]) (Some (step_id 2)) 5 9
           (RelationshipsResponse sample_name "step"
              (take 5 (array_sort by_score_desc
                 (map (result_of (Str.toLowerCase "step"))
                    (List.filter
                       (relationship_candidate (Str.toLowerCase "step")
                          (Some [builds_on]) (Some (step_id 2)))
                       (grown_session 3)))))
              1 9)).
  vm_compute. reflexivity.
Defined.

(** X16: without an excluded id and without relationship types (absent
    or empty), [find_thought_relationships] returns the results and the
    count of [search_in_session] at offset 0; both fail together, on the
    name format or on a session that is empty or absent. *)
Theorem find_relationships_without_filters fs name query types exclude limit clock :
  exclude = None ∨ exclude = Some EmptyString →
  types = None ∨ types = Some [] →
  match find_thought_relationships fs name query types exclude limit clock,
        search_in_session fs name query limit 0 clock with
  | RelationshipsOk r, SearchOk r' =>
      fr_results r = results r' ∧ fr_count r = count r'
  | ToolError e fields, ErrorPayload e' fields' =>
      fields = fields'
      ∧ ((e = "Session not found or empty" ∧ e' = "Session not found or empty")
         ∨ (e = "Failed to find relationships" ∧ e' = "Failed to search in session"))%string
  | _, _ => False
  end.
Proof.
  intros Hex Hty.
  unfold find_thought_relationships, search_in_session.
  destruct (validateSessionName name); [|auto].
  destruct (length (loadSession fs name) =? 0); [auto|].
  assert (Hfilter : ∀ t, relationship_candidate (Str.toLowerCase query) types exclude t
                         = matches_query (Str.toLowerCase query) t).
  { intros t. unfold relationship_candidate.
    destruct Hex as [-> | ->], Hty as [-> | ->]; done. }
  simpl. unfold searchResults, ranked_matches.
  rewrite (filter_ext _ _ Hfilter). done.
Qed.

Lemma find_relationships_without_filters_witness :
  match find_thought_relationships sample_store sample_name "amd" None None 10 9,
        search_in_session sample_store sample_name "amd" 10 0 9 with
  | RelationshipsOk r, SearchOk r' =>
      fr_results r = results r' ∧ fr_count r = count r'
  | ToolError e fields, ErrorPayload e' fields' =>
      fields = fields'
      ∧ ((e = "Session not found or empty" ∧ e' = "Session not found or empty")
         ∨ (e = "Failed to find relationships" ∧ e' = "Failed to search in session"))%string
  | _, _ => False
  end.
Proof.
  apply (find_relationships_without_filters sample_store sample_name "amd"
           None None 10 9); by left.
Defined.

(* ===================================================================== *)
(** * Listing tools and session metadata: further properties              *)
(* ===================================================================== *)

Lemma map_result_ok {A B} (f : A → result B) (g : A → B) l :
  (∀ x, x ∈ l → f x = Ok (g x)) → map_result f l = Ok (map g l).
Proof.
  induction l as [|x r IH]; intros H; simpl; [done|].
  rewrite (H x) by by left. rewrite IH; [done|].
  intros y Hy. apply H. by right.
Qed.

Lemma listSessionFiles_elem dir file :
  file ∈ listSessionFiles dir ↔ file ∈ dir ∧ ends_with ".json" file = true.
Proof.
  unfold listSessionFiles. by rewrite !list_elem_of_In, filter_In.
Qed.

Lemma ends_with_app suffix s : ends_with suffix (s ++ suffix) = true.
Proof.
  induction s as [|c s IH].
  - rewrite string_app_nil_l. destruct suffix; simpl; [done|].
    by rewrite Ascii.eqb_refl, String.eqb_refl.
  - rewrite string_app_cons. cbn [ends_with]. by rewrite IH, orb_true_r.
Qed.

(** Sorting by a key, largest first. *)
Lemma sort_insert_by_key {A} (key : A → Z) x l :
  StronglySorted (λ a b, (key b ≤ key a)%Z) l →
  StronglySorted (λ a b, (key b ≤ key a)%Z)
                 (sort_insert (λ a b, (key b - key a)%Z) x l).
Proof.
  induction 1 as [|y r Hr IH Hy]; simpl; [repeat constructor|].
  destruct (key y - key x <=? 0)%Z eqn:Hcmp.
  - apply Z.leb_le in Hcmp. constructor; [by constructor|].
    constructor; [lia|]. eapply Forall_impl; [exact Hy|]. simpl. lia.
  - apply Z.leb_gt in Hcmp. constructor; [done|].
    apply sort_insert_Forall; [lia|done].
Qed.

Lemma array_sort_by_key {A} (key : A → Z) l :
  StronglySorted (λ a b, (key b ≤ key a)%Z)
                 (array_sort (λ a b, (key b - key a)%Z) l).
Proof.
  induction l as [|x r IH]; simpl; [constructor|]. by apply sort_insert_by_key.
Qed.

Lemma session_entry_of_ok fs file :
  is_Some (fs !! file) → session_entry_of fs file = Ok (entry_for fs file).
Proof.
  intros [f Hf]. unfold session_entry_of, entry_for, Fs.stat. by rewrite Hf.
Qed.

(** X17: given a listing of the directory, [list_sessions] succeeds;
    [total] is the number of listed [.json] files, [count] the length of
    the page, [min limit (total - offset)]; the entries follow the listing
    order, each named by decoding its file name and counting the thoughts
    that load under that decoded name - so a file that cannot be parsed is
    listed with zero thoughts, not as an error. *)
Theorem list_sessions_page fs dir limit offset clock :
  is_listing fs dir →
  ∃ r,
    list_sessions fs dir limit offset clock = ListOk r
    ∧ total r = length (listSessionFiles dir)
    ∧ ls_count r = length (sessions r)
    ∧ ls_count r = min limit (total r - offset)
    ∧ map se_sessionName (sessions r)
      = map desanitizeFilename (take limit (drop offset (listSessionFiles dir)))
    ∧ Forall (λ e, se_thoughtCount e = length (loadSession fs (se_sessionName e)))
             (sessions r).
Proof.
  intros [_ Hdir]. unfold list_sessions.
  assert (Hpage : array_slice offset (offset + limit) (listSessionFiles dir)
                  = take limit (drop offset (listSessionFiles dir))).
  { unfold array_slice. by replace (offset + limit - offset) with limit by lia. }
  rewrite Hpage, (map_result_ok _ (entry_for fs)).
  - eexists. split; [reflexivity|]. simpl.
    split; [done|]. split; [done|].
    split; [by rewrite length_map, length_take, length_drop|].
    split; [by rewrite map_map|].
    apply Forall_map, Forall_forall. done.
  - intros file Hfile. apply session_entry_of_ok, Hdir.
    apply subseteq_take, subseteq_drop in Hfile.
    by apply listSessionFiles_elem in Hfile as [Hfile _].
Qed.

Lemma list_sessions_page_witness :
  ∃ r,
    list_sessions broken_store ["thesis___NVDA___ai_dominance.json"] 50 0 9 = ListOk r
    ∧ total r = length (listSessionFiles ["thesis___NVDA___ai_dominance.json"])
    ∧ ls_count r = length (sessions r)
    ∧ ls_count r = min 50 (total r - 0)
    ∧ map se_sessionName (sessions r)
      = map desanitizeFilename
            (take 50 (drop 0 (listSessionFiles ["thesis___NVDA___ai_dominance.json"])))
    ∧ Forall (λ e, se_thoughtCount e
                   = length (loadSession broken_store (se_sessionName e)))
             (sessions r).
Proof.
  apply (list_sessions_page broken_store ["thesis___NVDA___ai_dominance.json"] 50 0 9).
  split.
  - apply NoDup_singleton.
  - intros file. rewrite list_elem_of_singleton. unfold broken_store. split.
    + intros ->. by rewrite lookup_singleton_eq.
    + intros [f Hf]. by apply lookup_singleton_Some in Hf as [<- _].
Defined.

(** X18: a stored session whose name is valid and has no underscore
    before an underscore or a colon appears in a full listing (offset 0,
    limit at least the number of files) under exactly that name, with the
    number of thoughts it holds. *)
Theorem stored_session_is_listed fs dir name limit clock :
  is_listing fs dir →
  validateSessionName name = Ok name →
  separator_free name = true →
  is_Some (fs !! session_file name) →
  length (listSessionFiles dir) ≤ limit →
  ∃ r e,
    list_sessions fs dir limit 0 clock = ListOk r
    ∧ e ∈ sessions r
    ∧ se_sessionName e = name
    ∧ se_thoughtCount e = length (loadSession fs name).
Proof.
  intros [Hnd Hdir] Hvalid Hfree Hfile Hlimit. unfold list_sessions.
  assert (Hpage : array_slice 0 (0 + limit) (listSessionFiles dir)
                  = listSessionFiles dir).
  { unfold array_slice. simpl. rewrite Nat.sub_0_r. by apply take_ge. }
  rewrite Hpage, (map_result_ok _ (entry_for fs)).
  2:{ intros file [Hin _]%listSessionFiles_elem. by apply session_entry_of_ok, Hdir. }
  assert (Hdecode : desanitizeFilename (session_file name) = name).
  { apply decode_encode; [|done]. unfold validateSessionName in Hvalid.
    by destruct (SESSION_NAME_PATTERN_test name). }
  exists (ListResponse (map (entry_for fs) (listSessionFiles dir))
            (length (map (entry_for fs) (listSessionFiles dir)))
            (length (listSessionFiles dir)) limit 0 clock),
         (entry_for fs (session_file name)).
  split; [done|]. simpl. split.
  - apply list_elem_of_In, in_map, list_elem_of_In, listSessionFiles_elem.
    split; [by apply Hdir|]. apply ends_with_app.
  - unfold entry_for. simpl. by rewrite Hdecode.
Qed.

Lemma stored_session_is_listed_witness :
  ∃ r e,
    list_sessions sample_store ["thesis___NVDA___ai_dominance.json"] 50 0 9 = ListOk r
    ∧ e ∈ sessions r
    ∧ se_sessionName e = sample_name
    ∧ se_thoughtCount e = length (loadSession sample_store sample_name).
Proof.
  apply (stored_session_is_listed sample_store ["thesis___NVDA___ai_dominance.json"]
           sample_name 50 9); try reflexivity.
  - split; [apply NoDup_singleton|].
    intros file. rewrite list_elem_of_singleton. unfold sample_store. split.
    + intros ->. by rewrite lookup_singleton_eq.
    + intros [f Hf]. by apply lookup_singleton_Some in Hf as [<- _].
  - by eexists.
  - vm_compute. lia.
Defined.

Lemma session_match_of_ok fs queryLower file :
  is_Some (fs !! file) →
  session_match_of fs queryLower file = Ok (match_for fs queryLower file).
Proof.
  intros [f Hf]. unfold session_match_of, match_for, Fs.stat. rewrite Hf.
  by destruct (0 <? _).
Qed.

Lemma omap_length_le {A B} (f : A → option B) l : length (omap f l) ≤ length l.
Proof.
  induction l as [|x r IH]; csimpl; [done|]. destruct (f x); csimpl; lia.
Qed.

(** X19: given a listing of the directory, [search_all_sessions]
    succeeds; its summaries are in non-increasing order of
    [matchingThoughts], each for a session with at least one matching
    thought, with [matchingThoughts] (also reported as [relevanceScore])
    and [totalThoughts] counted on the thoughts that load under the
    decoded name; [count] is the page length, [min limit (totalMatching -
    offset)], and [totalMatching] is at most the number of [.json] files. *)
Theorem search_all_sessions_summaries fs dir query limit offset clock :
  is_listing fs dir →
  ∃ r,
    search_all_sessions fs dir query limit offset clock = SearchAllOk r
    ∧ sa_count r = length (sa_sessions r)
    ∧ sa_count r = min limit (totalMatching r - offset)
    ∧ totalMatching r ≤ length (listSessionFiles dir)
    ∧ StronglySorted (λ a b, matchingThoughts b ≤ matchingThoughts a) (sa_sessions r)
    ∧ Forall (λ m,
        1 ≤ matchingThoughts m
        ∧ matchingThoughts m ≤ sm_totalThoughts m
        ∧ relevanceScore m = matchingThoughts m
        ∧ matchingThoughts m
          = length (List.filter (matches_query (Str.toLowerCase query))
                                (loadSession fs (sm_sessionName m)))
        ∧ sm_totalThoughts m = length (loadSession fs (sm_sessionName m)))
        (sa_sessions r).
Proof.
  intros [_ Hdir]. unfold search_all_sessions.
  set (q := Str.toLowerCase query).
  rewrite (map_result_ok _ (match_for fs q)).
  2:{ intros file [Hin _]%listSessionFiles_elem. by apply session_match_of_ok, Hdir. }
  set (found := omap (λ m, m) (map (match_for fs q) (listSessionFiles dir))).
  assert (Hfound : Forall (λ m,
            1 ≤ matchingThoughts m
            ∧ matchingThoughts m ≤ sm_totalThoughts m
            ∧ relevanceScore m = matchingThoughts m
            ∧ matchingThoughts m
              = length (List.filter (matches_query q) (loadSession fs (sm_sessionName m)))
            ∧ sm_totalThoughts m = length (loadSession fs (sm_sessionName m))) found).
  { apply Forall_forall. intros m Hm. unfold found in Hm.
    apply list_elem_of_omap in Hm as (o & Ho & ->).
    apply list_elem_of_In, in_map_iff in Ho as (file & Hfile & _).
    unfold match_for in Hfile.
    destruct (Nat.ltb_spec 0 (length (List.filter (matches_query q)
                (loadSession fs (desanitizeFilename file))))) as [Hpos|]; [|done].
    injection Hfile as <-. simpl. split; [lia|]. split; [apply filter_length_le|done]. }
  eexists. split; [reflexivity|]. simpl.
  split; [done|]. split.
  { unfold array_slice. rewrite length_take, length_drop.
    by replace (offset + limit - offset) with limit by lia. }
  split.
  { rewrite array_sort_length. unfold found.
    etrans; [apply omap_length_le|]. by rewrite length_map. }
  assert (Hsorted : StronglySorted (λ a b, relevanceScore b ≤ relevanceScore a)
                      (array_sort by_matches_desc found)).
  { rewrite <- (map_id (array_sort by_matches_desc found)).
    eapply StronglySorted_map;
      [|apply (array_sort_by_key (λ m, Z.of_nat (relevanceScore m)))].
    simpl. intros a b. unfold Datatypes.id. lia. }
  assert (Hall := array_sort_Forall _ by_matches_desc _ Hfound).
  split.
  - unfold array_slice. apply StronglySorted_take, StronglySorted_drop.
    clear Hfound. revert Hall. induction Hsorted as [|x l Hl IH Hx]; [constructor|].
    intros [Hx' Hl']%Forall_cons. constructor; [by apply IH|].
    rewrite Forall_forall in *. intros y Hy.
    destruct Hx' as (_ & _ & <- & _). destruct (Hl' y Hy) as (_ & _ & <- & _).
    by apply Hx.
  - unfold array_slice. by apply Forall_take, Forall_drop.
Qed.

Lemma search_all_sessions_summaries_witness :
  ∃ r,
    search_all_sessions sample_store ["thesis___NVDA___ai_dominance.json"] "amd" 20 0 9
    = SearchAllOk r
    ∧ sa_count r = length (sa_sessions r)
    ∧ sa_count r = min 20 (totalMatching r - 0)
    ∧ totalMatching r ≤ length (listSessionFiles ["thesis___NVDA___ai_dominance.json"])
    ∧ StronglySorted (λ a b, matchingThoughts b ≤ matchingThoughts a) (sa_sessions r)
    ∧ Forall (λ m,
        1 ≤ matchingThoughts m
        ∧ matchingThoughts m ≤ sm_totalThoughts m
        ∧ relevanceScore m = matchingThoughts m
        ∧ matchingThoughts m
          = length (List.filter (matches_query (Str.toLowerCase "amd"))
                                (loadSession sample_store (sm_sessionName m)))
        ∧ sm_totalThoughts m = length (loadSession sample_store (sm_sessionName m)))
        (sa_sessions r).
Proof.
  apply (search_all_sessions_summaries sample_store
           ["thesis___NVDA___ai_dominance.json"] "amd" 20 0 9).
  split; [apply NoDup_singleton|].
  intros file. rewrite list_elem_of_singleton. unfold sample_store. split.
  - intros ->. by rewrite lookup_singleton_eq.
  - intros [f Hf]. by apply lookup_singleton_Some in Hf as [<- _].
Defined.

(** ** get_session_info *)

Lemma set_order_spec {A} `{EqDecision A} (l : list A) : ∀ seen,
  NoDup (set_order seen l)
  ∧ ∀ x, x ∈ set_order seen l ↔ x ∈ l ∧ x ∉ seen.
Proof.
  induction l as [|y r IH]; intros seen; simpl.
  { split; [constructor|]. intros x. split; [by intros ?%elem_of_nil|].
    by intros [?%elem_of_nil _]. }
  case_bool_decide as Hy.
  - destruct (IH seen) as [Hnd Hiff]. split; [done|].
    intros x. rewrite Hiff, elem_of_cons. split.
    + intros [Hx Hn]. split; [by right|done].
    + intros [[->|Hx] Hn]; [done|]. split; done.
  - destruct (IH (y :: seen)) as [Hnd Hiff]. split.
    + constructor; [|done]. rewrite Hiff. intros [_ Hn]. apply Hn. by left.
    + intros x. split.
      * intros [->|[Hx Hn]%Hiff]%elem_of_cons.
        -- split; [by left|done].
        -- split; [by right|]. intros Hs. apply Hn. by right.
      * intros [[->|Hx]%elem_of_cons Hn]; [by left|].
        destruct (decide (x = y)) as [->|Hne]; [by left|].
        right. apply Hiff. split; [done|].
        intros [?|?]%elem_of_cons; done.
Qed.

(** X20: for a valid name, [get_session_info] succeeds; [exists] is true
    exactly when the session's file is present (whatever it holds), and
    so are [created] and [lastModified]; [thoughtCount] counts the loaded
    thoughts; [modes] and [tags] list, each once, exactly the modes and
    the tags of the loaded thoughts; [firstThought] and [lastThought] are
    the stamps of the first and the last of them. *)
Theorem get_session_info_summary fs name clock :
  validateSessionName name = Ok name →
  ∃ r,
    get_session_info fs name clock = InfoOk r
    ∧ (exists_ r = true ↔ is_Some (fs !! session_file name))
    ∧ (is_Some (created r) ↔ is_Some (fs !! session_file name))
    ∧ (is_Some (lastModified r) ↔ is_Some (fs !! session_file name))
    ∧ in_thoughtCount r = length (loadSession fs name)
    ∧ firstThought r = timestamp <$> head (loadSession fs name)
    ∧ lastThought r = timestamp <$> last (loadSession fs name)
    ∧ NoDup (modes r)
    ∧ (∀ m, m ∈ modes r ↔ ∃ t, t ∈ loadSession fs name ∧ mode t = m)
    ∧ NoDup (in_tags r)
    ∧ (∀ g, g ∈ in_tags r ↔ ∃ t, t ∈ loadSession fs name ∧ g ∈ tags t).
Proof.
  intros Hvalid. unfold get_session_info, Fs.stat. rewrite Hvalid.
  fold (session_file name).
  eexists. split; [reflexivity|]. simpl.
  destruct (set_order_spec (map mode (loadSession fs name)) []) as [Hm1 Hm2].
  destruct (set_order_spec (flat_map tags (loadSession fs name)) []) as [Ht1 Ht2].
  assert (Hfile : loadSession fs name ≠ [] → is_Some (fs !! session_file name)).
  { intros (? & ? & ? & ->)%loadSession_nonempty. by eexists. }
  split; [|split; [|split; [|split; [|split; [|split; [|split; [|split; [|split]]]]]]]];
    try done.
  - destruct (fs !! session_file name) as [f|] eqn:Hf; simpl.
    + rewrite orb_true_r. split; [by eexists|done].
    + destruct (loadSession fs name) as [|t ts]; simpl.
      * split; [done|]. by intros [? [=]].
      * destruct Hfile as [? [=]]. done.
  - destruct (fs !! session_file name); simpl; [split; intros _; by eexists|done].
  - destruct (fs !! session_file name); simpl; [split; intros _; by eexists|done].
  - intros m. rewrite Hm2. split.
    + intros [Hin _]. apply list_elem_of_In, in_map_iff in Hin as (t & <- & Ht).
      exists t. split; [by apply list_elem_of_In|done].
    + intros (t & Ht & <-). split; [|by intros ?%elem_of_nil].
      by apply list_elem_of_In, in_map, list_elem_of_In.
  - intros g. rewrite Ht2. split.
    + intros [Hin _]. apply list_elem_of_In, in_flat_map in Hin as (t & Ht & Hg).
      exists t. split; by apply list_elem_of_In.
    + intros (t & Ht & Hg). split; [|by intros ?%elem_of_nil].
      apply list_elem_of_In, in_flat_map. exists t. split; by apply list_elem_of_In.
Qed.

Lemma get_session_info_summary_witness :
  ∃ r,
    get_session_info sample_store sample_name 9 = InfoOk r
    ∧ (exists_ r = true ↔ is_Some (sample_store !! session_file sample_name))
    ∧ (is_Some (created r) ↔ is_Some (sample_store !! session_file sample_name))
    ∧ (is_Some (lastModified r) ↔ is_Some (sample_store !! session_file sample_name))
    ∧ in_thoughtCount r = length (loadSession sample_store sample_name)
    ∧ firstThought r = timestamp <$> head (loadSession sample_store sample_name)
    ∧ lastThought r = timestamp <$> last (loadSession sample_store sample_name)
    ∧ NoDup (modes r)
    ∧ (∀ m, m ∈ modes r ↔ ∃ t, t ∈ loadSession sample_store sample_name ∧ mode t = m)
    ∧ NoDup (in_tags r)
    ∧ (∀ g, g ∈ in_tags r ↔ ∃ t, t ∈ loadSession sample_store sample_name ∧ g ∈ tags t).
Proof.
  apply (get_session_info_summary sample_store sample_name 9). reflexivity.
Defined.

(* ===================================================================== *)
(** * Reasoning chain: further properties                                 *)
(* ===================================================================== *)

Lemma rev_is_reverse {A} (l : list A) : rev l = reverse l.
Proof. unfold reverse. by rewrite rev_append_rev, app_nil_r. Qed.

Lemma slice_last_map {A B} (f : A → B) n (l : list A) :
  map f (slice_last n l) = slice_last n (map f l).
Proof. unfold slice_last. by rewrite skipn_map, length_map. Qed.

(** Any field of the chain entries that the truncation marker leaves
    alone is read off the walk of depth 20: the last 7 of the walk in
    forward order. *)
Lemma chain_projection {B} (f : chain_entry → B) (g : thought → B) startId thoughts :
  (∀ t, f (entry_of t) = g t) →
  (∀ k e, f (mark_truncated k e) = f e) →
  let r := buildReasoningChain startId thoughts in
  let walk := ancestry_walk 20 thoughts ∅ startId in
  map f (chain r) = slice_last 7 (reverse (map g walk))
  ∧ total_length r = length walk
  ∧ truncated r = bool_decide (7 < length walk).
Proof.
  intros Hentry Hmark r walk. subst r.
  unfold buildReasoningChain, maxChainLength.
  rewrite chain_loop_walk by (simpl; lia). rewrite app_nil_r.
  change (20 - length (@nil chain_entry)) with 20. fold walk.
  assert (Hlen : length (rev (map entry_of walk)) = length walk)
    by by rewrite length_rev, length_map.
  assert (Hmap : map f (rev (map entry_of walk)) = reverse (map g walk)).
  { rewrite <- map_rev, map_map, <- rev_is_reverse, <- map_rev.
    apply map_ext. done. }
  rewrite Hlen.
  destruct (Nat.ltb_spec 7 (length walk)) as [Hlt|Hge]; simpl.
  - rewrite bool_decide_eq_true_2 by done. split; [|done].
    rewrite <- Hmap, <- slice_last_map.
    destruct (slice_last 7 (rev (map entry_of walk))) as [|e rest]; [done|].
    simpl. by rewrite Hmark.
  - rewrite bool_decide_eq_false_2 by lia. split; [|done].
    rewrite Hmap. symmetry. apply slice_last_all.
    rewrite length_reverse, length_map. done.
Qed.

Lemma last_drop_lt {A} (l : list A) k : k < length l → last (drop k l) = last l.
Proof.
  intros Hk. rewrite !last_lookup, lookup_drop, length_drop. f_equal. lia.
Qed.

(** X21: the chain returned by [buildReasoningChain] has at most 7
    entries, [total_length] is at most 20 and at most the number of
    stored thoughts, and [truncated] tells whether it exceeds 7; the ids
    in the chain are pairwise distinct ids of stored thoughts - also on
    data whose [builds_on] links form a cycle - and the chain ends with
    the thought the walk started from, or is empty when that id is empty
    or not stored. *)
Theorem chain_is_short_and_acyclic startId thoughts :
  let r := buildReasoningChain startId thoughts in
  length (chain r) ≤ 7
  ∧ length (chain r) ≤ total_length r
  ∧ total_length r ≤ 20
  ∧ total_length r ≤ length thoughts
  ∧ truncated r = bool_decide (7 < total_length r)
  ∧ NoDup (map ce_id (chain r))
  ∧ (∀ i, i ∈ map ce_id (chain r) → i ∈ map id thoughts)
  ∧ ce_id <$> last (chain r)
    = (if Str.truthy startId then id <$> find_thought startId thoughts else None).
Proof.
  intros r.
  destruct (chain_projection ce_id id startId thoughts) as (Hids & Htotal & Htrunc);
    [done..|].
  fold r in Hids, Htotal, Htrunc.
  set (walk := ancestry_walk 20 thoughts ∅ startId) in *.
  destruct (ancestry_walk_ids 20 thoughts ∅ startId) as [Hnd Hall]. fold walk in Hnd, Hall.
  assert (Hlen : length (chain r) = min (length walk) 7).
  { rewrite <- (length_map ce_id), Hids, slice_last_length, length_reverse.
    by rewrite length_map. }
  split; [lia|]. split; [lia|]. rewrite Htotal.
  split; [apply ancestry_walk_length|]. split; [apply ancestry_walk_bounded|].
  split; [done|]. rewrite Hids. split; [|split].
  - eapply sublist_NoDup; [|apply sublist_drop].
    by rewrite reverse_Permutation.
  - intros i Hi. apply subseteq_drop in Hi. rewrite elem_of_reverse in Hi.
    by apply Hall in Hi as [_ Hi].
  - change (ce_id <$> last (chain r)) with (ce_id <$> last (chain r)).
    rewrite <- fmap_last. change (ce_id <$> chain r) with (map ce_id (chain r)).
    rewrite Hids. unfold slice_last. rewrite length_reverse, length_map.
    assert (Hhead : head (map id walk)
                    = if Str.truthy startId then id <$> find_thought startId thoughts
                      else None).
    { unfold walk. cbn [ancestry_walk].
      destruct (Str.truthy startId); simpl; [|done].
      rewrite bool_decide_eq_true_2 by apply not_elem_of_empty.
      by destruct (find_thought startId thoughts). }
    rewrite <- Hhead.
    destruct walk as [|t rest]; [done|].
    rewrite last_drop_lt by (rewrite length_reverse, length_map; simpl; lia).
    apply last_reverse.
Qed.

(** Every thought of a walk but the last one met builds on the next. *)
Lemma ancestry_walk_links fuel thoughts : ∀ visited currentId i t,
  ancestry_walk fuel thoughts visited currentId !! i = Some t →
  S i < length (ancestry_walk fuel thoughts visited currentId) →
  relationship_type t = Some builds_on.
Proof.
  induction fuel as [|f IH]; intros v c i t; cbn [ancestry_walk]; [done|].
  destruct (_ && _); [|done].
  destruct (find_thought c thoughts) as [x|]; [|done].
  destruct (builds_on_target x) as [r|] eqn:Htarget.
  - destruct i as [|i]; simpl.
    + intros [= ->] _. unfold builds_on_target in Htarget.
      destruct (relationship_type t) as [[]|]; done.
    + intros Hi Hlen. eapply IH; [exact Hi|lia].
  - destruct i as [|i]; simpl; [lia|done].
Qed.

(** X22: every entry of the chain except the oldest one shown has
    relationship type [builds_on], and so has the oldest one when the
    chain was truncated. *)
Theorem chain_entries_build_on startId thoughts j e :
  let r := buildReasoningChain startId thoughts in
  chain r !! j = Some e →
  0 < j ∨ truncated r = true →
  ce_relationship_type e = Some builds_on.
Proof.
  intros r Hj Hcond.
  destruct (chain_projection ce_relationship_type relationship_type startId thoughts)
    as (Htypes & _ & Htrunc); [done..|].
  fold r in Htypes, Htrunc.
  set (walk := ancestry_walk 20 thoughts ∅ startId) in *.
  assert (Hty : map ce_relationship_type (chain r) !! j
                = Some (ce_relationship_type e)).
  { change (map ce_relationship_type (chain r)) with (ce_relationship_type <$> chain r).
    by rewrite list_lookup_fmap, Hj. }
  rewrite Htypes in Hty. unfold slice_last in Hty.
  rewrite lookup_drop, length_reverse, length_map in Hty.
  apply reverse_lookup_Some in Hty as [Hty Hbound]. rewrite length_map in Hty, Hbound.
  change (map relationship_type walk) with (relationship_type <$> walk) in Hty.
  apply list_lookup_fmap_Some_1 in Hty as (t & -> & Ht).
  eapply (ancestry_walk_links 20 thoughts ∅ startId); [exact Ht|]. fold walk.
  destruct Hcond as [Hpos|Htrue]; [lia|].
  rewrite Htrunc in Htrue. apply bool_decide_eq_true in Htrue. lia.
Qed.

Lemma chain_entries_build_on_witness :
  ce_relationship_type
    (ChainEntry (step_id 3) "step" linear 3 (Some builds_on) false None)
  = Some builds_on.
Proof.
  apply (chain_entries_build_on (step_id 3) (grown_session 3) 2
           (ChainEntry (step_id 3) "step" linear 3 (Some builds_on) false None)).
  - vm_compute. reflexivity.
  - left. lia.
Defined.
